(** * Plannnnner: the task visibility, mutation, ordering, ticker and
    streak logic of the app, embedded in Rocq.

    Sources: [src/types.ts] (the [Task] record), [src/unnamed/part_002]
    (utils: [getLocalISO], [parseLocalDate], [shouldShowTask]; History:
    [calculateStreak]), [src/unnamed/part_001] (the drift-corrected worker,
    the view composer and the mutations of that revision), [src/App.tsx]
    (the mutations of the earlier revision) and [src/unnamed/part_000]. *)

From Stdlib Require Import ZArith Lia Bool List String Ascii.
From Stdlib Require Import Permutation Sorted.
From Stdlib Require Import DecimalString DecimalZ DecimalPos.
Import ListNotations.
Open Scope string_scope.
Open Scope Z_scope.

(* ------------------------------------------------------------------ *)
(** ** Data model ([src/types.ts]) *)

Inductive TaskType := OneTime | Recurring | Weekly.
Inductive Category := Personal | Work | Health | Other.

(** [weeklyDay?: number | null]: absent, [null], or a number. *)
Inductive WeeklyDay := WUndefined | WNull | WNum (n : Z).

Record Task := mkTask {
  id : Z;
  text : string;
  type : TaskType;
  category : Category;
  dateCreated : string;
  completions : list string;
  hiddenDates : list string;
  weeklyDay : WeeklyDay;
  time : option string;
  notes : option string
}.

(** JavaScript's [arr.includes(x)] on an array of strings. *)
Definition includes (l : list string) (x : string) : bool :=
  existsb (String.eqb x) l.

(** JavaScript's [<] and [<=] on strings: lexicographic comparison of the
    code units; on the ASCII strings the app stores this is [String.compare]. *)
Definition str_lt (a b : string) : bool := String.ltb a b.
Definition str_le (a b : string) : bool := String.leb a b.

(* ------------------------------------------------------------------ *)
(** ** JavaScript local dates

    A [Date] object is modelled by the local calendar day it denotes, as a
    day number counted from 1970-01-01 (a Thursday); [None] is the Invalid
    Date ([NaN] time value).  The app only ever looks at the calendar day
    of its dates ([getFullYear], [getMonth], [getDate], [getDay],
    [setDate]), so the time of day is not modelled; neither is the
    time-value range limit of about 273,790 years. *)

Definition JSDate := option Z.

(** Proleptic Gregorian calendar: days from civil date (month 1..12). *)
Definition days_from_civil (y m d : Z) : Z :=
  let y' := if m <=? 2 then y - 1 else y in
  let era := y' / 400 in
  let yoe := y' - era * 400 in
  let mp := if 2 <? m then m - 3 else m + 9 in
  let doy := (153 * mp + 2) / 5 + d - 1 in
  let doe := yoe * 365 + yoe / 4 - yoe / 100 + doy in
  era * 146097 + doe - 719468.

(** Year of era, month and day of the day [doe] of a 400-year era that
    starts on a March 1st. *)
Definition civil_of_doe (doe : Z) : Z * Z * Z :=
  let yoe := (doe - doe / 1460 + doe / 36524 - doe / 146096) / 365 in
  let doy := doe - (365 * yoe + yoe / 4 - yoe / 100) in
  let mp := (5 * doy + 2) / 153 in
  let d := doy - (153 * mp + 2) / 5 + 1 in
  let m := if mp <? 10 then mp + 3 else mp - 9 in
  (yoe, m, d).

(** Civil date (year, month 1..12, day) of a day number. *)
Definition civil_from_days (z : Z) : Z * Z * Z :=
  let z' := z + 719468 in
  let era := z' / 146097 in
  let doe := z' mod 146097 in
  let '(yoe, m, d) := civil_of_doe doe in
  (yoe + era * 400 + (if m <=? 2 then 1 else 0), m, d).

(** [new Date(year, monthIndex, day)]: a year 0..99 means 1900..1999, the
    month index and the day overflow into the following months and years. *)
Definition new_Date (year monthIndex day : Z) : JSDate :=
  let fy := if (0 <=? year) && (year <=? 99) then 1900 + year else year in
  let ym := fy + monthIndex / 12 in
  let mn := monthIndex mod 12 in
  Some (days_from_civil ym (mn + 1) 1 + day - 1).

(** [date.getDay()]: Sunday = 0 .. Saturday = 6, [NaN] on an Invalid Date. *)
Definition getDay (dt : JSDate) : option Z :=
  match dt with
  | Some z => Some ((z + 4) mod 7)
  | None => None
  end.

(** [d.setDate(d.getDate() + k)]: move [k] calendar days. *)
Definition addDays (dt : JSDate) (k : Z) : JSDate :=
  match dt with
  | Some z => Some (z + k)
  | None => None
  end.

(** [String(n)] for an integer [n]. *)
Definition string_of_Z (z : Z) : string :=
  NilEmpty.string_of_int (Z.to_int z).

(** [s.padStart(2, '0')]. *)
Definition padStart2 (s : string) : string :=
  match String.length s with
  | O => "00"
  | S O => "0" ++ s
  | _ => s
  end.

(** [getLocalISO(date)] (utils, part_002 lines 1-6). *)
Definition getLocalISO (dt : JSDate) : string :=
  match dt with
  | Some z =>
      let '(y, m, d) := civil_from_days z in
      string_of_Z y ++ "-" ++ padStart2 (string_of_Z m) ++ "-"
        ++ padStart2 (string_of_Z d)
  | None => "NaN-NaN-NaN"
  end.

(** [s.split('-')]. *)
Fixpoint split_dash (s : string) : list string :=
  match s with
  | EmptyString => [EmptyString]
  | String c rest =>
      if Ascii.eqb c "-" then EmptyString :: split_dash rest
      else match split_dash rest with
           | w :: ws => String c w :: ws
           | [] => [String c EmptyString]
           end
  end.

(** [Number(s)] on a field of a date string: a string of decimal digits
    (the empty string gives 0); any other string gives [NaN] ([None]).
    The whitespace, sign, fraction and exponent forms [Number] also reads
    never occur in a field between two dashes of the app's dates. *)
Definition Number (s : string) : option Z :=
  option_map (fun u => Z.of_N (N.of_uint u)) (NilEmpty.uint_of_string s).

(** [parseLocalDate(dateStr)] (utils, part_002 lines 8-11). *)
Definition parseLocalDate (dateStr : string) : JSDate :=
  match split_dash dateStr with
  | ys :: ms :: ds :: _ =>
      match Number ys, Number ms, Number ds with
      | Some y, Some m, Some d => new_Date y (m - 1) d
      | _, _, _ => None
      end
  | _ => None
  end.

(** The local-calendar weekday of a date string, as [shouldShowTask]
    computes it: [parseLocalDate(dateStr).getDay()]. *)
Definition weekday (dateStr : string) : option Z :=
  getDay (parseLocalDate dateStr).

(** [task.weeklyDay === d.getDay()]. *)
Definition weeklyDay_eqb (w : WeeklyDay) (g : option Z) : bool :=
  match w, g with
  | WNum n, Some k => n =? k
  | _, _ => false
  end.

(* ------------------------------------------------------------------ *)
(** ** Occurrence rule: [shouldShowTask] (part_002 lines 23-41)

    [todayStr] is [getLocalISO()], the current local date, read from the
    clock inside the function; it is a parameter here. *)

Definition shouldShowTask (todayStr : string) (task : Task) (dateStr : string)
  : bool :=
  if includes (hiddenDates task) dateStr then false else
  match type task with
  | OneTime =>
      if String.eqb (dateCreated task) dateStr then true
      else if String.eqb dateStr todayStr
              && str_lt (dateCreated task) todayStr
              && negb (includes (completions task) (dateCreated task))
      then true
      else false
  | Recurring => str_le (dateCreated task) dateStr
  | Weekly =>
      weeklyDay_eqb (weeklyDay task) (getDay (parseLocalDate dateStr))
        && str_le (dateCreated task) dateStr
  end.


(* ------------------------------------------------------------------ *)
(** ** Completion and mutation engine

    Each action maps the task collection with
    [prev.map(t => t.id !== id ? t : f(t))]; [f] is the per-task update
    modelled below, and [update_task] the collection step. *)

Definition update_task (tid : Z) (f : Task -> Task) (tasks : list Task)
  : list Task :=
  map (fun t => if id t =? tid then f t else t) tasks.

Definition with_completions (t : Task) (c : list string) : Task :=
  mkTask (id t) (text t) (type t) (category t) (dateCreated t) c
    (hiddenDates t) (weeklyDay t) (time t) (notes t).

Definition with_hidden (t : Task) (h : list string) : Task :=
  mkTask (id t) (text t) (type t) (category t) (dateCreated t)
    (completions t) h (weeklyDay t) (time t) (notes t).

Definition with_move (t : Task) (h : list string) (dc : string)
  (c : list string) : Task :=
  mkTask (id t) (text t) (type t) (category t) dc c h (weeklyDay t)
    (time t) (notes t).

(** [arr.splice(arr.indexOf(x), 1)] when [x] occurs: drop the first [x]. *)
Fixpoint remove_first (x : string) (l : list string) : list string :=
  match l with
  | [] => []
  | y :: r => if String.eqb y x then r else y :: remove_first x r
  end.

(** [arr.filter(c => c !== x)]. *)
Definition filter_out (x : string) (l : list string) : list string :=
  filter (fun c => negb (String.eqb c x)) l.

(** [toggleTask] (part_001 lines 317-327, App.tsx lines 273-282, part_000
    lines 316-334): [targetDate] is the view date ([effectiveViewDate] in
    part_001 and part_000, [selectedDate] in App.tsx). *)
Definition toggleTask (targetDate : string) (t : Task) : Task :=
  if includes (completions t) targetDate
  then with_completions t (remove_first targetDate (completions t))
  else with_completions t ((completions t ++ [targetDate])%list).

(** [executeDelete] (part_001 lines 331-338, App.tsx lines 288-298, and
    [handleDelete] of part_000): the soft delete of one occurrence. *)
Definition executeDelete (viewDate : string) (t : Task) : Task :=
  with_hidden t ((hiddenDates t ++ [viewDate])%list).

(** Move direction, shared by all revisions:
    [selectedDate > todayStr ? 'backward' : 'forward']. *)
Definition moveOffset (todayStr selectedDate : string) : Z :=
  if str_lt todayStr selectedDate then -1 else 1.

(** The per-task step of [executeMoveTask] in part_001 (lines 342-369);
    [handleMoveTask] of part_000 (lines 337-365) does the same. *)
Definition moveTask (offset : Z) (viewDate : string) (t : Task) : Task :=
  let targetDateStr := getLocalISO (addDays (parseLocalDate viewDate) offset) in
  let newHidden := (hiddenDates t ++ [viewDate])%list in
  let newDateCreated :=
    match type t with OneTime => targetDateStr | _ => dateCreated t end in
  with_move t newHidden newDateCreated (filter_out viewDate (completions t)).

(** [executeMoveTask] of part_001 on the collection: the day view, where
    [effectiveViewDate] is [selectedDate]. *)
Definition executeMoveTask (todayStr selectedDate : string) (tid : Z)
  (tasks : list Task) : list Task :=
  update_task tid (moveTask (moveOffset todayStr selectedDate) selectedDate)
    tasks.

(** A JavaScript [Set] of strings, as the list of its elements in insertion
    order: [s.add(x)], [s.delete(x)], [new Set(l)]. *)
Definition set_add (s : list string) (x : string) : list string :=
  if includes s x then s else (s ++ [x])%list.

Definition set_delete (s : list string) (x : string) : list string :=
  filter_out x s.

Definition set_of_list (l : list string) : list string :=
  fold_left set_add l [].

(** The per-task step of [executeMoveTask] in App.tsx (lines 304-347). *)
Definition moveTask_App (offset : Z) (selectedDate : string) (t : Task)
  : Task :=
  let targetDateStr :=
    getLocalISO (addDays (parseLocalDate selectedDate) offset) in
  let newHidden0 := set_add (set_of_list (hiddenDates t)) selectedDate in
  let newHidden :=
    if includes newHidden0 targetDateStr
    then set_delete newHidden0 targetDateStr else newHidden0 in
  let newDateCreated :=
    match type t with
    | OneTime =>
        if str_lt targetDateStr (dateCreated t) then targetDateStr
        else if (offset =? 1) && String.eqb (dateCreated t) selectedDate
        then targetDateStr
        else dateCreated t
    | _ => dateCreated t
    end in
  with_move t newHidden newDateCreated
    (filter_out selectedDate (completions t)).

Definition executeMoveTask_App (todayStr selectedDate : string) (tid : Z)
  (tasks : list Task) : list Task :=
  update_task tid
    (moveTask_App (moveOffset todayStr selectedDate) selectedDate) tasks.

(** Field edits (App.tsx lines 349-433, part_001 and the edit modal's
    [updateField], part_006 lines 175-241): text, time, notes, category,
    type, weekday and, in the modal, the date.  [EText] carries the stored
    text (after [trim().substring(0, 100)] in [updateTaskText], as typed in
    the modal); [nowDay] is [new Date().getDay()], used by [updateTaskType]
    when a task becomes weekly without a day.  The modal's type buttons set
    the type alone ([ETypeField]) and its date picker sets [dateCreated]
    ([EDateCreated]). *)
Inductive Edit :=
  | EText (s : string)
  | ETime (tm : option string)
  | ENotes (n : string)
  | ECategory (c : Category)
  | EType (ty : TaskType) (nowDay : Z)
  | EWeeklyDay (d : Z)
  | ETypeField (ty : TaskType)
  | EDateCreated (dc : string).

Definition applyEdit (e : Edit) (t : Task) : Task :=
  match e with
  | EText s =>
      mkTask (id t) s (type t) (category t) (dateCreated t) (completions t)
        (hiddenDates t) (weeklyDay t) (time t) (notes t)
  | ETime tm =>
      mkTask (id t) (text t) (type t) (category t) (dateCreated t)
        (completions t) (hiddenDates t) (weeklyDay t) tm (notes t)
  | ENotes n =>
      mkTask (id t) (text t) (type t) (category t) (dateCreated t)
        (completions t) (hiddenDates t) (weeklyDay t) (time t) (Some n)
  | ECategory c =>
      mkTask (id t) (text t) (type t) c (dateCreated t) (completions t)
        (hiddenDates t) (weeklyDay t) (time t) (notes t)
  | EType ty nowDay =>
      let wd := match ty, weeklyDay t with
                | Weekly, WUndefined => WNum nowDay
                | _, w => w
                end in
      mkTask (id t) (text t) ty (category t) (dateCreated t) (completions t)
        (hiddenDates t) wd (time t) (notes t)
  | EWeeklyDay d =>
      mkTask (id t) (text t) (type t) (category t) (dateCreated t)
        (completions t) (hiddenDates t) (WNum d) (time t) (notes t)
  | ETypeField ty =>
      mkTask (id t) (text t) ty (category t) (dateCreated t) (completions t)
        (hiddenDates t) (weeklyDay t) (time t) (notes t)
  | EDateCreated dc =>
      mkTask (id t) (text t) (type t) (category t) dc (completions t)
        (hiddenDates t) (weeklyDay t) (time t) (notes t)
  end.

(* ------------------------------------------------------------------ *)
(** ** Drift-corrected ticker ([createWorker], part_001 lines 12-42)

    One run of [step()] at wall-clock time [now] with the worker's
    [expected]: it posts one ['tick'], updates [expected] and arms
    [setTimeout(step, delay)]. *)

Record StepOut := mkStepOut {
  ticks : nat;          (* messages posted by this run of [step] *)
  expected' : Z;        (* [expected] after the run *)
  delay : Z             (* the timeout armed for the next run *)
}.

Definition step (expected now : Z) : StepOut :=
  let dt := now - expected in
  let expected1 := if 1000 <? dt then now else expected in
  mkStepOut 1 (expected1 + 1000) (Z.max 0 (1000 - dt)).

(** The ticks of successive runs: the [k]-th run starts [delay + lag_k]
    after the previous one, [lag_k >= 0] being the timer's lateness. *)
Fixpoint tick_times (lags : list Z) (expected now : Z) : list Z :=
  match lags with
  | [] => []
  | lag :: rest =>
      let o := step expected now in
      now :: tick_times rest (expected' o) (now + delay o + lag)
  end.

(* ------------------------------------------------------------------ *)
(** ** Sort and view composer (part_001 lines 248-313) *)

Inductive ViewMode := DayView | WeekView | HistoryView.

(** [effectiveViewDate]: the week view is always anchored at today. *)
Definition effectiveViewDate (todayStr : string) (view : ViewMode)
  (selectedDate : string) (drill : option string) : string :=
  match view, drill with
  | WeekView, _ => todayStr
  | HistoryView, Some d => d
  | _, _ => selectedDate
  end.

(** The seven dates [viewStart + i], [i = 0..6]. *)
Definition weekDates (viewStart : string) : list string :=
  map (fun i => getLocalISO (addDays (parseLocalDate viewStart) i))
    [0; 1; 2; 3; 4; 5; 6].

(** [visible]: in the week view the tasks due on any of the seven dates,
    selected by id from the collection; otherwise the tasks due on
    [viewStart]. *)
Definition visibleTasks (todayStr : string) (view : ViewMode)
  (viewStart : string) (tasks : list Task) : list Task :=
  match view with
  | WeekView =>
      let weekIds :=
        flat_map (fun iso =>
          map id (filter (fun t => shouldShowTask todayStr t iso) tasks))
          (weekDates viewStart) in
      filter (fun t => existsb (Z.eqb (id t)) weekIds) tasks
  | _ => filter (fun t => shouldShowTask todayStr t viewStart) tasks
  end.

(** [a.localeCompare(b)] on the app's date and time strings (digits,
    ['-'] and [':']), where it orders as the code units do. *)
Definition localeCompare (a b : string) : Z :=
  match String.compare a b with Lt => -1 | Eq => 0 | Gt => 1 end.

(** The weekly branch of [getSortDate]: [start] plus
    [(weeklyDay - currentDay + 7) % 7] days ([%] is the truncated
    remainder [Z.rem]). *)
Definition weeklySortDate (viewStart : string) (w : Z) : string :=
  let start := parseLocalDate viewStart in
  match getDay start with
  | Some currentDay => getLocalISO (addDays start (Z.rem (w - currentDay + 7) 7))
  | None => getLocalISO None
  end.

(** [getSortDate]; a [null] weekday counts as 0 in the arithmetic. *)
Definition getSortDate (viewStart : string) (t : Task) : string :=
  match type t with
  | OneTime => dateCreated t
  | Recurring =>
      if str_lt (dateCreated t) viewStart then viewStart else dateCreated t
  | Weekly =>
      match weeklyDay t with
      | WUndefined => dateCreated t
      | WNull => weeklySortDate viewStart 0
      | WNum w => weeklySortDate viewStart w
      end
  end.

(** [a.time || '23:59']. *)
Definition timeKey (t : Task) : string :=
  match time t with
  | Some s => if String.eqb s "" then "23:59" else s
  | None => "23:59"
  end.

(** The comparator passed to [visible.sort]. *)
Definition compareTasks (viewStart : string) (a b : Task) : Z :=
  let dateA := getSortDate viewStart a in
  let dateB := getSortDate viewStart b in
  if negb (String.eqb dateA dateB) then localeCompare dateA dateB else
  let timeA := timeKey a in
  let timeB := timeKey b in
  if negb (String.eqb timeA timeB) then localeCompare timeA timeB else
  id a - id b.

(** [arr.sort(cmp)], as a stable insertion sort (any sorting algorithm
    gives the same result here, see [sortedVisibleTasks_strict_order]). *)
Fixpoint insert_by (cmp : Task -> Task -> Z) (x : Task) (l : list Task)
  : list Task :=
  match l with
  | [] => [x]
  | y :: r => if cmp x y <? 0 then x :: y :: r else y :: insert_by cmp x r
  end.

Definition sort_by (cmp : Task -> Task -> Z) (l : list Task) : list Task :=
  fold_left (fun acc x => insert_by cmp x acc) l [].

Definition sortedVisibleTasks (todayStr : string) (view : ViewMode)
  (viewStart : string) (tasks : list Task) : list Task :=
  sort_by (compareTasks viewStart) (visibleTasks todayStr view viewStart tasks).




(* ------------------------------------------------------------------ *)
(** ** Streak ([calculateStreak], part_002 lines 149-189)

    [nowDay] is the local day of [new Date()].  The [while (true)] loop
    walks back one day per iteration while the date is in the set; it is
    given [|U| + 1] iterations, more than it can take:
    [calculateStreak_spec] shows it always stops at a gap. *)

(** [uniqueDates]: every date of every task's completions. *)
Definition uniqueDates (tasks : list Task) : list string :=
  flat_map completions tasks.

Fixpoint countBack (fuel : nat) (U : list string) (day : Z) : Z :=
  match fuel with
  | O => 0
  | S f =>
      if includes U (getLocalISO (Some day))
      then 1 + countBack f U (day - 1)
      else 0
  end.

Definition calculateStreak (tasks : list Task) (nowDay : Z) : Z :=
  let U := uniqueDates tasks in
  let today := getLocalISO (Some nowDay) in
  match U with
  | [] => 0
  | _ =>
      let yesterdayStr := getLocalISO (addDays (Some nowDay) (-1)) in
      if negb (includes U today) && negb (includes U yesterdayStr) then 0
      else
        let checkDate := if includes U today then nowDay else nowDay - 1 in
        countBack (S (List.length U)) U checkDate
  end.

(** Calendar facts checked over one whole 400-year era: for every day
    [doe] of the era, [civil_of_doe] yields a year of era in [0..399], a
    month in [1..12] and a day in [1..31] from which [days_from_civil]'s
    arithmetic recovers [doe]. *)
Definition doe_of (yoe m d : Z) : Z :=
  let mp := if 2 <? m then m - 3 else m + 9 in
  yoe * 365 + yoe / 4 - yoe / 100 + ((153 * mp + 2) / 5 + d - 1).

Definition check_doe (doe : Z) : bool :=
  let '(yoe, m, d) := civil_of_doe doe in
  (0 <=? yoe) && (yoe <=? 399) && (1 <=? m) && (m <=? 12)
  && (1 <=? d) && (d <=? 31) && (doe_of yoe m d =? doe).

Fixpoint check_doe_from (n : nat) (z : Z) : bool :=
  match n with
  | O => true
  | S k => check_doe z && check_doe_from k (z + 1)
  end.

(** [padStart(2, '0')] of [String(k)] separates the numbers 1..31. *)
Definition days_1_31 : list Z := map Z.of_nat (seq 1 31).

Definition check_pad : bool :=
  forallb (fun a => forallb (fun b =>
    Bool.eqb (String.eqb (padStart2 (string_of_Z a)) (padStart2 (string_of_Z b)))
             (a =? b)
    && (String.length (padStart2 (string_of_Z a)) =? 2)%nat) days_1_31) days_1_31.

(* ------------------------------------------------------------------ *)
(** ** [escapeHtml] (utils, part_002 lines 13-21) *)

(** [s.replace(/c/g, r)] for a one-character pattern [c]. *)
Fixpoint replace_all (c : ascii) (r : string) (s : string) : string :=
  match s with
  | EmptyString => EmptyString
  | String a rest =>
      if Ascii.eqb a c then r ++ replace_all c r rest
      else String a (replace_all c r rest)
  end.

(** The double-quote character. *)
Definition dquote : ascii := ascii_of_nat 34.

Definition escapeHtml (text : string) : string :=
  match text with
  | EmptyString => EmptyString
  | _ =>
      replace_all "'"%char "&#039;"
        (replace_all dquote "&quot;"
           (replace_all ">"%char "&gt;"
              (replace_all "<"%char "&lt;"
                 (replace_all "&"%char "&amp;" text))))
  end.

(** One character through the five replacements. *)
Definition esc_char (a : ascii) : string :=
  if Ascii.eqb a "&"%char then "&amp;"
  else if Ascii.eqb a "<"%char then "&lt;"
  else if Ascii.eqb a ">"%char then "&gt;"
  else if Ascii.eqb a dquote then "&quot;"
  else if Ascii.eqb a "'"%char then "&#039;"
  else String a EmptyString.

Fixpoint esc_all (s : string) : string :=
  match s with
  | EmptyString => EmptyString
  | String a rest => esc_char a ++ esc_all rest
  end.

(* ------------------------------------------------------------------ *)
(** ** [String.prototype.trim] and [updateTaskText] (App.tsx lines 349-352) *)

(** The JavaScript white space and line terminators among the 8-bit
    characters: tab, line feed, vertical tab, form feed, carriage return,
    space and no-break space. *)
Definition js_space (c : ascii) : bool :=
  let n := nat_of_ascii c in
  ((9 <=? n)%nat && (n <=? 13)%nat) || (n =? 32)%nat || (n =? 160)%nat.

Fixpoint trim_start (s : string) : string :=
  match s with
  | EmptyString => EmptyString
  | String c r => if js_space c then trim_start r else s
  end.

Fixpoint trim_end (s : string) : string :=
  match s with
  | EmptyString => EmptyString
  | String c r =>
      let r' := trim_end r in
      if js_space c && String.eqb r' EmptyString then EmptyString
      else String c r'
  end.

(** [s.trim()]. *)
Definition trim (s : string) : string := trim_end (trim_start s).

(** [updateTaskText(id, text)]: blank text is ignored, otherwise the task
    gets [text.trim().substring(0, 100)]. *)
Definition updateTaskText (tid : Z) (txt : string) (tasks : list Task)
  : list Task :=
  if String.eqb (trim txt) EmptyString then tasks
  else update_task tid (applyEdit (EText (substring 0 100 (trim txt)))) tasks.

(* ------------------------------------------------------------------ *)
(** ** Date strings read back by [parseLocalDate] *)

(** No ['-'] in a string. *)
Definition nodash (s : string) : bool :=
  negb (existsb (fun c => Ascii.eqb c "-"%char) (list_ascii_of_string s)).

Definition pad_field_ok (k : Z) : bool :=
  nodash (padStart2 (string_of_Z k)) &&
  match Number (padStart2 (string_of_Z k)) with
  | Some v => v =? k
  | None => false
  end.

Definition check_fields : bool := forallb pad_field_ok days_1_31.

(* ------------------------------------------------------------------ *)
(** ** Level and XP (History, part_002 lines 139-146)

    [totalWins] sums the lengths of the completion arrays; the level is
    [Math.floor(xp / 10) + 1] (exact on the integer [xp]). *)

Definition totalWins (tasks : list Task) : Z :=
  fold_left (fun acc t => acc + Z.of_nat (List.length (completions t))) tasks 0.

Definition level (xp : Z) : Z := xp / 10 + 1.
Definition nextLevelXp (xp : Z) : Z := level xp * 10.
Definition currentLevelXp (xp : Z) : Z := (level xp - 1) * 10.

(* ------------------------------------------------------------------ *)
(** ** Alarm check ([checkAlarms], part_000 lines 181-200; the same loop
    in part_001 lines 180-197 and App.tsx lines 188-231)

    One pass of [tasks.forEach] at local day [todayISO] and minute
    [currentHM] ([shouldShowTask] reads the same day through
    [getLocalISO()]).  The result is the list of tasks whose alarm fires,
    in order, and the notified set afterwards (a JS [Set] kept as an
    insertion-ordered list). *)

(** [`${String(h).padStart(2,'0')}:${String(m).padStart(2,'0')}`]. *)
Definition hhmm (h m : Z) : string :=
  padStart2 (string_of_Z h) ++ ":" ++ padStart2 (string_of_Z m).

(** [`${t.id}-${todayISO}-${currentHM}`]. *)
Definition notificationKey (t : Task) (todayISO currentHM : string) : string :=
  string_of_Z (id t) ++ "-" ++ todayISO ++ "-" ++ currentHM.

(** [t.time === currentHM]. *)
Definition time_is (t : Task) (hm : string) : bool :=
  match time t with
  | Some s => String.eqb s hm
  | None => false
  end.

(** The condition of the two nested [if]s before the key test. *)
Definition alarm_due (todayISO currentHM : string) (t : Task) : bool :=
  shouldShowTask todayISO t todayISO && negb (includes (completions t) todayISO)
  && time_is t currentHM.

Fixpoint checkAlarms (todayISO currentHM : string) (tasks : list Task)
  (notified : list string) : list Task * list string :=
  match tasks with
  | [] => ([], notified)
  | t :: rest =>
      let key := notificationKey t todayISO currentHM in
      if alarm_due todayISO currentHM t && negb (includes notified key)
      then let '(fired, n') :=
             checkAlarms todayISO currentHM rest (set_add notified key) in
           (t :: fired, n')
      else checkAlarms todayISO currentHM rest notified
  end.

(* ------------------------------------------------------------------ *)
(** ** Reordering ([handleReorder], part_000 lines 378-392) *)

(** [new Map(prev.map(t => [t.id, t])).get(k)]: with repeated ids the
    last entry wins. *)
Definition idMap_get (prev : list Task) (k : Z) : option Task :=
  find (fun t => id t =? k) (rev prev).

Definition handleReorder (newOrderedTasks prev : list Task) : list Task :=
  let newOrderIds := map id newOrderedTasks in
  let reorderedVisible :=
    flat_map (fun k => match idMap_get prev k with
                       | Some t => [t]
                       | None => []
                       end) newOrderIds in
  let otherTasks :=
    filter (fun t => negb (existsb (Z.eqb (id t)) newOrderIds)) prev in
  (reorderedVisible ++ otherTasks)%list.

(* ------------------------------------------------------------------ *)
(** ** Cycling the category and the type (App.tsx lines 408-429) and the
    category wheel of the add form (part_003 lines 131-148) *)

Definition CATEGORIES : list Category := [Personal; Work; Health; Other].
Definition TASK_TYPES : list TaskType := [OneTime; Recurring; Weekly].

Definition category_eqb (a b : Category) : bool :=
  match a, b with
  | Personal, Personal | Work, Work | Health, Health | Other, Other => true
  | _, _ => false
  end.

Definition type_eqb (a b : TaskType) : bool :=
  match a, b with
  | OneTime, OneTime | Recurring, Recurring | Weekly, Weekly => true
  | _, _ => false
  end.

(** [arr.indexOf(x)], [-1] when absent. *)
Fixpoint indexOf {A : Type} (eqb : A -> A -> bool) (l : list A) (x : A) : Z :=
  match l with
  | [] => -1
  | y :: r => if eqb y x then 0 else
                let i := indexOf eqb r x in if i <? 0 then -1 else i + 1
  end.

(** [arr[i]]; every index used below is in range (the category or type
    is always found), [d] is never returned. *)
Definition at_index {A : Type} (l : list A) (i : Z) (d : A) : A :=
  nth (Z.to_nat i) l d.

(** [cycleCategory] on one task. *)
Definition cycleCategory_task (t : Task) : Task :=
  let idx := indexOf category_eqb CATEGORIES (category t) in
  applyEdit (ECategory (at_index CATEGORIES ((idx + 1) mod 4) Personal)) t.

(** [cycleType] on one task; [nowDay] is [new Date().getDay()].  The
    record built is the one of [updateTaskType]: [applyEdit (EType ..)]. *)
Definition cycleType_task (nowDay : Z) (t : Task) : Task :=
  let idx := indexOf type_eqb TASK_TYPES (type t) in
  applyEdit (EType (at_index TASK_TYPES ((idx + 1) mod 3) OneTime) nowDay) t.

(** [cycleCategory(id)] and [cycleType(id)] on the task collection. *)
Definition cycleCategory (tid : Z) (tasks : list Task) : list Task :=
  update_task tid cycleCategory_task tasks.

Definition cycleType (nowDay tid : Z) (tasks : list Task) : list Task :=
  update_task tid (cycleType_task nowDay) tasks.

(** The category wheel: [delta = Math.sign(e.deltaY)]. *)
Definition wheelCategory (delta : Z) (c : Category) : Category :=
  let currentIndex := indexOf category_eqb CATEGORIES c in
  let newIndex := if 0 <? delta then (currentIndex + 1) mod 4
                  else (currentIndex - 1 + 4) mod 4 in
  at_index CATEGORIES newIndex Personal.

(* ------------------------------------------------------------------ *)
(** ** Times of day: [snoozeTask] (App.tsx lines 387-399) and the time
    wheels of the add form (part_003 lines 83-113) *)

(** [s.split(sep)]. *)
Fixpoint split_on (sep : ascii) (s : string) : list string :=
  match s with
  | EmptyString => [EmptyString]
  | String c rest =>
      if Ascii.eqb c sep then EmptyString :: split_on sep rest
      else match split_on sep rest with
           | w :: ws => String c w :: ws
           | [] => [String c EmptyString]
           end
  end.

(** [String(x)] of a number that may be [NaN]. *)
Definition str_num (o : option Z) : string :=
  match o with
  | Some z => string_of_Z z
  | None => "NaN"
  end.

(** [const [h, m] = time.split(':').map(Number)], then [setHours(h)],
    [setMinutes(m + 5)] on a local date and the [HH:MM] read back: the
    time of day [h * 60 + m + 5] minutes, taken modulo a day (the local
    clock has no daylight-saving jump at that moment).  A missing or
    non-numeric field makes the date invalid: ["NaN:NaN"].  [Number] is
    the model above, exact on the digit fields of the times the app
    stores. *)
Definition snoozeTime (tm : string) : string :=
  match map Number (split_on ":"%char tm) with
  | Some h :: Some m :: _ =>
      let total := (h * 60 + (m + 5)) mod 1440 in
      hhmm (total / 60) (total mod 60)
  | _ => "NaN:NaN"
  end.

Definition snoozeTask (activeAlert : option Task) (tasks : list Task)
  : list Task :=
  match activeAlert with
  | Some a =>
      match time a with
      | Some tm =>
          if String.eqb tm EmptyString then tasks
          else update_task (id a) (applyEdit (ETime (Some (snoozeTime tm)))) tasks
      | None => tasks
      end
  | None => tasks
  end.

(** [parseInt(s, 10)]: leading white space, an optional sign, then the
    longest run of decimal digits; [NaN] when there is none. *)
Definition digit_val (c : ascii) : option Z :=
  let n := nat_of_ascii c in
  if (48 <=? n)%nat && (n <=? 57)%nat then Some (Z.of_nat n - 48) else None.

Fixpoint digits_prefix (s : string) (acc : option Z) : option Z :=
  match s with
  | EmptyString => acc
  | String c r =>
      match digit_val c with
      | Some v => digits_prefix r (Some (match acc with
                                         | Some a => a * 10 + v
                                         | None => v
                                         end))
      | None => acc
      end
  end.

Definition parseInt10 (s : string) : option Z :=
  match trim_start s with
  | EmptyString => None
  | String c r =>
      if Ascii.eqb c "-"%char then option_map Z.opp (digits_prefix r None)
      else if Ascii.eqb c "+"%char then digits_prefix r None
      else digits_prefix (String c r) None
  end.

(** [getCurrentHour()] and [getCurrentMinute()]: the fields of [time], or
    ['09'] and ['00'] when no time is set; a missing field is
    [undefined], which [parseInt] reads as [NaN] ([None] here). *)
Definition getCurrentHour (tm : string) : option string :=
  if String.eqb tm EmptyString then Some "09" else nth_error (split_on ":"%char tm) 0.

Definition getCurrentMinute (tm : string) : option string :=
  if String.eqb tm EmptyString then Some "00" else nth_error (split_on ":"%char tm) 1.

Definition parse_field (o : option string) : option Z :=
  match o with
  | Some s => parseInt10 s
  | None => None
  end.

(** [val > 23 ? 0 : val < 0 ? 23 : val] (and [59] for minutes); [NaN]
    fails both tests. *)
Definition wrap (hi : Z) (v : option Z) : option Z :=
  match v with
  | Some x => if hi <? x then Some 0 else if x <? 0 then Some hi else Some x
  | None => None
  end.

(** One wheel event on the hour ([hourMode = true]) or minute column:
    the new [time] string set by [handleTimeSelect]. *)
Definition wheelTime (hourMode : bool) (delta : Z) (tm : string) : string :=
  let currentH := parse_field (getCurrentHour tm) in
  let currentM := parse_field (getCurrentMinute tm) in
  if hourMode then
    padStart2 (str_num (wrap 23 (option_map (fun h => h + delta) currentH)))
      ++ ":" ++ padStart2 (str_num currentM)
  else
    padStart2 (str_num currentH) ++ ":"
      ++ padStart2 (str_num (wrap 59 (option_map (fun m => m + delta) currentM))).

(* ------------------------------------------------------------------ *)
(** ** Calendar cells (Sidebar, part_004 lines 26-44; DatePickerPopover,
    part_006 lines 61-72) *)

(** The date string of the cell for day [d] of month index [month]. *)
Definition calendarDayStr (year month d : Z) : string :=
  string_of_Z year ++ "-" ++ padStart2 (string_of_Z (month + 1)) ++ "-"
    ++ padStart2 (string_of_Z d).

(** Checks over all times of day. *)
Definition hours_0_23 : list Z := map Z.of_nat (seq 0 24).
Definition minutes_0_59 : list Z := map Z.of_nat (seq 0 60).

Definition check_snooze : bool :=
  forallb (fun h => forallb (fun m =>
    let total := (h * 60 + m + 5) mod 1440 in
    String.eqb (snoozeTime (hhmm h m)) (hhmm (total / 60) (total mod 60)))
    minutes_0_59) hours_0_23.

Definition check_wheel : bool :=
  forallb (fun h => forallb (fun m => forallb (fun delta =>
    String.eqb (wheelTime true delta (hhmm h m)) (hhmm ((h + delta) mod 24) m)
    && String.eqb (wheelTime false delta (hhmm h m)) (hhmm h ((m + delta) mod 60)))
    [-1; 0; 1]) minutes_0_59) hours_0_23.

(* ------------------------------------------------------------------ *)
(** ** Sample tasks used by the scenarios *)

Definition weekly_monday : Task :=
  mkTask 1 "gym" Weekly Health "2024-01-01" [] [] (WNum 1) None None.

Definition onetime_0110 (c h : list string) : Task :=
  mkTask 2 "report" OneTime Work "2024-01-10" c h WUndefined None None.

Definition rec_old : Task :=
  mkTask 10 "stretch" Recurring Health "2023-05-01" [] [] WUndefined None None.

Definition wk_fri : Task :=
  mkTask 11 "review" Weekly Work "2024-01-01" [] [] (WNum 5) (Some "08:00") None.

Definition ot_today : Task :=
  mkTask 12 "call" OneTime Personal "2024-01-10" [] [] WUndefined (Some "09:30") None.

Definition ot_today2 : Task :=
  mkTask 9 "mail" OneTime Personal "2024-01-10" [] [] WUndefined None None.

Definition rec_walk : Task :=
  mkTask 13 "walk" Recurring Health "2024-01-01" [] [] WUndefined (Some "09:30") None.

(** ** Sort keys: the (sort date, time, id) key of [compareTasks] *)



(* ================================================================== *)
(** * Properties *)

(** ** List and string facts *)

Lemma includes_In (l : list string) (x : string) :
  includes l x = true <-> In x l.
Proof.
  unfold includes. rewrite existsb_exists. split.
  - intros [y [Hy Heq]]. apply String.eqb_eq in Heq. subst. exact Hy.
  - intros H. exists x. split; [exact H | apply String.eqb_refl].
Qed.

Lemma includes_false (l : list string) (x : string) :
  includes l x = false <-> ~ In x l.
Proof.
  rewrite <- includes_In. destruct (includes l x); split; congruence.
Qed.

Lemma remove_first_incl (x : string) (l : list string) :
  forall y, In y (remove_first x l) -> In y l.
Proof.
  induction l as [|a r IH]; simpl; [tauto|].
  destruct (String.eqb a x); simpl; intros y Hy; [right; exact Hy|].
  destruct Hy as [Hy|Hy]; [left; exact Hy | right; apply IH, Hy].
Qed.

Lemma remove_first_NoDup (x : string) (l : list string) :
  NoDup l -> NoDup (remove_first x l).
Proof.
  induction l as [|a r IH]; simpl; intros Hnd; [constructor|].
  inversion Hnd as [|? ? Hnin Hr]; subst.
  destruct (String.eqb a x); [exact Hr|].
  constructor; [|apply IH, Hr].
  intros Hin. apply Hnin, (remove_first_incl x r a Hin).
Qed.

Lemma remove_first_notin (x : string) (l : list string) :
  ~ In x l -> remove_first x l = l.
Proof.
  induction l as [|a r IH]; simpl; intros Hn; [reflexivity|].
  destruct (String.eqb_spec a x) as [->|Hne]; [exfalso; tauto|].
  f_equal. apply IH. tauto.
Qed.

Lemma remove_first_app_last (x : string) (l : list string) :
  ~ In x l -> remove_first x (l ++ [x])%list = l.
Proof.
  induction l as [|a r IH]; simpl; intros Hn.
  - rewrite String.eqb_refl. reflexivity.
  - destruct (String.eqb_spec a x) as [->|Hne]; [exfalso; tauto|].
    f_equal. apply IH. tauto.
Qed.

Lemma remove_first_perm (x : string) (l : list string) :
  In x l -> Permutation l (x :: remove_first x l).
Proof.
  induction l as [|a r IH]; simpl; [tauto|]. intros Hin.
  destruct (String.eqb_spec a x) as [->|Hne]; [reflexivity|].
  destruct Hin as [->|Hin]; [congruence|].
  eapply perm_trans; [apply perm_skip, IH, Hin | apply perm_swap].
Qed.

Lemma remove_first_NoDup_notin (x : string) (l : list string) :
  NoDup l -> ~ In x (remove_first x l).
Proof.
  induction l as [|a r IH]; simpl; intros Hnd; [tauto|].
  inversion Hnd as [|? ? Hnin Hr]; subst.
  destruct (String.eqb_spec a x) as [->|Hne]; [exact Hnin|].
  intros [H|H]; [congruence | apply (IH Hr H)].
Qed.

Lemma NoDup_snoc (l : list string) (x : string) :
  NoDup l -> ~ In x l -> NoDup (l ++ [x])%list.
Proof.
  intros Hnd Hn.
  apply (Permutation_NoDup (l := x :: l)).
  - apply Permutation_cons_append.
  - constructor; assumption.
Qed.

Lemma filter_out_notin (x : string) (l : list string) :
  ~ In x (filter_out x l).
Proof.
  unfold filter_out. rewrite filter_In. intros [_ H].
  rewrite String.eqb_refl in H. discriminate.
Qed.

Lemma set_add_NoDup (s : list string) (x : string) :
  NoDup s -> NoDup (set_add s x).
Proof.
  unfold set_add. intros Hnd. destruct (includes s x) eqn:E; [exact Hnd|].
  apply NoDup_snoc; [exact Hnd | apply includes_false, E].
Qed.

Lemma set_of_list_NoDup (l : list string) : NoDup (set_of_list l).
Proof.
  unfold set_of_list.
  assert (Hgen : forall acc, NoDup acc -> NoDup (fold_left set_add l acc)).
  { induction l as [|a r IH]; simpl; intros acc Hacc; [exact Hacc|].
    apply IH, set_add_NoDup, Hacc. }
  apply Hgen. constructor.
Qed.

Ltac task_eta := match goal with t : Task |- _ => destruct t; reflexivity end.

(** ** Occurrence rule *)

Example iso_2024_01_31 :
  getLocalISO (addDays (parseLocalDate "2024-01-31") 1) = "2024-02-01".
Proof. reflexivity. Qed.

Example iso_leap :
  getLocalISO (addDays (parseLocalDate "2024-02-28") 1) = "2024-02-29".
Proof. reflexivity. Qed.

Example weekly_monday_scenario :
  shouldShowTask "2024-01-08" weekly_monday "2024-01-08" = true /\
  shouldShowTask "2024-01-08" weekly_monday "2024-01-15" = true /\
  shouldShowTask "2024-01-08" weekly_monday "2024-01-09" = false.
Proof. repeat split; reflexivity. Qed.

Lemma weeklyDay_eqb_spec (w : WeeklyDay) (g : option Z) :
  weeklyDay_eqb w g = true <-> exists n, w = WNum n /\ g = Some n.
Proof.
  destruct w as [| |n]; destruct g as [k|]; simpl; split;
    try discriminate; try (intros [m [H1 H2]]; discriminate).
  - intros H. apply Z.eqb_eq in H. subst. exists k. split; reflexivity.
  - intros [m [H1 H2]]. inversion H1; inversion H2; subst. apply Z.eqb_refl.
Qed.

(** C1: a weekly task is shown on [d] exactly when the local weekday of
    [d] is its [weeklyDay], [dateCreated <= d] (ISO string order), and [d]
    is not one of its hidden dates. *)
Theorem shouldShowTask_weekly_iff (todayStr : string) (t : Task) (d : string)
  (Hty : type t = Weekly) :
  shouldShowTask todayStr t d = true <->
  (exists w, weeklyDay t = WNum w /\ weekday d = Some w) /\
  str_le (dateCreated t) d = true /\ ~ In d (hiddenDates t).
Proof.
  unfold shouldShowTask, weekday. rewrite Hty.
  destruct (includes (hiddenDates t) d) eqn:Eh.
  - apply includes_In in Eh. split; [discriminate | tauto].
  - apply includes_false in Eh. rewrite andb_true_iff, weeklyDay_eqb_spec.
    tauto.
Qed.

Lemma shouldShowTask_weekly_iff_witness :
  type weekly_monday = Weekly /\
  (shouldShowTask "2024-01-08" weekly_monday "2024-01-15" = true <->
   (exists w, weeklyDay weekly_monday = WNum w /\ weekday "2024-01-15" = Some w) /\
   str_le (dateCreated weekly_monday) "2024-01-15" = true /\
   ~ In "2024-01-15" (hiddenDates weekly_monday)).
Proof.
  split; [reflexivity|].
  apply (shouldShowTask_weekly_iff "2024-01-08" weekly_monday "2024-01-15").
  reflexivity.
Defined.

(** C2 (counterexample): the rollover rule alone does not make a past,
    uncompleted one-time task due today: a hidden date wins. *)
Lemma rollover_hidden_today_counterexample :
  type (onetime_0110 [] ["2024-01-12"]) = OneTime /\
  str_lt "2024-01-10" "2024-01-12" = true /\
  ~ In "2024-01-10" (completions (onetime_0110 [] ["2024-01-12"])) /\
  shouldShowTask "2024-01-12" (onetime_0110 [] ["2024-01-12"]) "2024-01-12"
    = false.
Proof.
  repeat split; try reflexivity. simpl. tauto.
Qed.

(** C2 (amended): a one-time task created before today, whose creation
    date is not completed and which is not hidden today, is due today; on
    any date that is neither today nor its creation date it is not due. *)
Theorem shouldShowTask_onetime_rollover (todayStr : string) (t : Task)
  (Hty : type t = OneTime)
  (Hpast : str_lt (dateCreated t) todayStr = true)
  (Hnc : ~ In (dateCreated t) (completions t))
  (Hnh : ~ In todayStr (hiddenDates t)) :
  shouldShowTask todayStr t todayStr = true /\
  (forall d, d <> todayStr -> d <> dateCreated t ->
     shouldShowTask todayStr t d = false).
Proof.
  unfold shouldShowTask. rewrite Hty. split.
  - apply includes_false in Hnh. rewrite Hnh.
    destruct (String.eqb (dateCreated t) todayStr); [reflexivity|].
    rewrite String.eqb_refl, Hpast.
    apply includes_false in Hnc. rewrite Hnc. reflexivity.
  - intros d Hd Hdc.
    destruct (includes (hiddenDates t) d); [reflexivity|].
    destruct (String.eqb_spec (dateCreated t) d) as [E|_]; [congruence|].
    destruct (String.eqb_spec d todayStr) as [E|_]; [congruence|].
    reflexivity.
Qed.

Lemma shouldShowTask_onetime_rollover_witness :
  (type (onetime_0110 [] []) = OneTime /\
   str_lt "2024-01-10" "2024-01-12" = true /\
   ~ In "2024-01-10" (completions (onetime_0110 [] [])) /\
   ~ In "2024-01-12" (hiddenDates (onetime_0110 [] []))) /\
  shouldShowTask "2024-01-12" (onetime_0110 [] []) "2024-01-12" = true /\
  shouldShowTask "2024-01-12" (onetime_0110 [] []) "2024-01-11" = false.
Proof.
  assert (Hw := shouldShowTask_onetime_rollover "2024-01-12" (onetime_0110 [] [])
                  eq_refl eq_refl (fun H => H) (fun H => H)).
  destruct Hw as [Htoday Hother].
  split; [split; [reflexivity | split; [reflexivity | split; simpl; tauto]]|].
  split; [exact Htoday|].
  apply Hother; discriminate.
Defined.

(** C10: the rollover test looks only at the creation date in the
    completions: a past one-time task whose creation date is not completed
    and which is not hidden today is due today, and still due after it is
    marked complete for today. *)
Theorem rollover_ignores_today_completion (todayStr : string) (t : Task)
  (Hty : type t = OneTime)
  (Hpast : str_lt (dateCreated t) todayStr = true)
  (Hnc : ~ In (dateCreated t) (completions t))
  (Hnh : ~ In todayStr (hiddenDates t)) :
  shouldShowTask todayStr t todayStr = true /\
  (~ In todayStr (completions t) ->
   In todayStr (completions (toggleTask todayStr t)) /\
   shouldShowTask todayStr (toggleTask todayStr t) todayStr = true).
Proof.
  assert (Hne : dateCreated t <> todayStr).
  { intros E. rewrite E in Hpast. unfold str_lt, String.ltb in Hpast.
    assert (Hc : String.compare todayStr todayStr = Eq).
    { clear. induction todayStr as [|a s IH]; simpl; [reflexivity|].
      unfold Ascii.compare. rewrite N.compare_refl. exact IH. }
    rewrite Hc in Hpast. discriminate. }
  assert (Hshow : forall u, type u = OneTime -> dateCreated u = dateCreated t ->
            hiddenDates u = hiddenDates t -> ~ In (dateCreated t) (completions u) ->
            shouldShowTask todayStr u todayStr = true).
  { intros u Hu Hdc Hh Hc. unfold shouldShowTask. rewrite Hu, Hdc, Hh.
    apply includes_false in Hnh. rewrite Hnh.
    destruct (String.eqb (dateCreated t) todayStr); [reflexivity|].
    rewrite String.eqb_refl, Hpast. apply includes_false in Hc. rewrite Hc.
    reflexivity. }
  split; [apply Hshow; auto|]. intros Hnt.
  unfold toggleTask. destruct (includes (completions t) todayStr) eqn:E.
  - apply includes_In in E. contradiction.
  - simpl. split; [apply in_or_app; right; left; reflexivity|].
    apply Hshow; auto. simpl. intros Hin. apply in_app_or in Hin.
    destruct Hin as [Hin|[Hin|[]]]; [exact (Hnc Hin) | exact (Hne (eq_sym Hin))].
Qed.

Lemma rollover_ignores_today_completion_witness :
  (type (onetime_0110 ["2024-01-12"] []) = OneTime /\
   str_lt "2024-01-10" "2024-01-12" = true /\
   ~ In "2024-01-10" (completions (onetime_0110 ["2024-01-12"] [])) /\
   ~ In "2024-01-12" (hiddenDates (onetime_0110 ["2024-01-12"] []))) /\
  shouldShowTask "2024-01-12" (onetime_0110 ["2024-01-12"] []) "2024-01-12"
    = true.
Proof.
  split; [split; [reflexivity | split; [reflexivity | split; simpl; intuition discriminate]]|].
  refine (proj1 (rollover_ignores_today_completion "2024-01-12"
           (onetime_0110 ["2024-01-12"] []) eq_refl eq_refl _ _)).
  - simpl. intuition discriminate.
  - simpl. tauto.
Defined.

(** ** Mutations *)

(** C3 (counterexample): the soft delete neither checks whether the date is
    already hidden nor strips it from the completions. *)
Lemma executeDelete_keeps_completion_counterexample :
  In "2024-01-10"
     (completions (executeDelete "2024-01-10" (onetime_0110 ["2024-01-10"] ["2024-01-10"]))) /\
  hiddenDates (executeDelete "2024-01-10" (onetime_0110 ["2024-01-10"] ["2024-01-10"]))
    = ["2024-01-10"; "2024-01-10"].
Proof. split; [simpl; tauto | reflexivity]. Qed.

(** C3 (amended): [executeDelete] appends the date to [hiddenDates]
    unconditionally, so afterwards the date is hidden, and it leaves the
    completions and every other field unchanged. *)
Theorem executeDelete_spec (d : string) (t : Task) :
  hiddenDates (executeDelete d t) = (hiddenDates t ++ [d])%list /\
  In d (hiddenDates (executeDelete d t)) /\
  completions (executeDelete d t) = completions t /\
  with_hidden (executeDelete d t) (hiddenDates t) = t.
Proof.
  unfold executeDelete. simpl. split; [reflexivity|]. split.
  - apply in_or_app. right. left. reflexivity.
  - split; [reflexivity | task_eta].
Qed.

(** C4 (counterexample): soft-deleting a date that is already hidden (the
    week view lists a task hidden today when it is due later in the week)
    duplicates it in [hiddenDates]. *)
Lemma executeDelete_duplicates_counterexample :
  NoDup (completions (onetime_0110 [] ["2024-01-10"])) /\
  NoDup (hiddenDates (onetime_0110 [] ["2024-01-10"])) /\
  ~ NoDup (hiddenDates (executeDelete "2024-01-10" (onetime_0110 [] ["2024-01-10"]))).
Proof.
  split; [constructor|]. split; [repeat constructor; simpl; tauto|].
  simpl. intros H. inversion H as [|? ? Hn _]. apply Hn. left. reflexivity.
Qed.

(** C4 (amended): toggling a completion and every field edit (those of
    App.tsx and of the edit modal, its date included) keep both
    [completions] and [hiddenDates] free of duplicates; moving (either
    revision) and soft delete keep [completions] free of duplicates, and
    keep [hiddenDates] so whenever the acted-on date is not already hidden
    ([moveTask_App], which rebuilds the list through a [Set], always). *)
Theorem mutations_preserve_NoDup (t : Task) (d : string)
  (Hc : NoDup (completions t)) (Hh : NoDup (hiddenDates t)) :
  (NoDup (completions (toggleTask d t)) /\ NoDup (hiddenDates (toggleTask d t))) /\
  (forall e, NoDup (completions (applyEdit e t)) /\
             NoDup (hiddenDates (applyEdit e t))) /\
  (NoDup (completions (executeDelete d t)) /\
   (~ In d (hiddenDates t) -> NoDup (hiddenDates (executeDelete d t)))) /\
  (forall off, NoDup (completions (moveTask off d t)) /\
   (~ In d (hiddenDates t) -> NoDup (hiddenDates (moveTask off d t)))) /\
  (forall off, NoDup (completions (moveTask_App off d t)) /\
               NoDup (hiddenDates (moveTask_App off d t))).
Proof.
  split; [|split; [|split; [|split]]].
  - unfold toggleTask. destruct (includes (completions t) d) eqn:E; simpl.
    + split; [apply remove_first_NoDup, Hc | exact Hh].
    + split; [apply NoDup_snoc; [exact Hc | apply includes_false, E] | exact Hh].
  - intros e. destruct e; simpl; split; assumption.
  - simpl. split; [exact Hc|]. intros Hn. apply NoDup_snoc; assumption.
  - intros off. simpl. split.
    + apply NoDup_filter, Hc.
    + intros Hn. apply NoDup_snoc; assumption.
  - intros off. unfold moveTask_App. simpl. split; [apply NoDup_filter, Hc|].
    match goal with |- NoDup (if ?b then _ else _) => destruct b end;
      [apply NoDup_filter|]; apply set_add_NoDup, set_of_list_NoDup.
Qed.

Lemma mutations_preserve_NoDup_witness :
  (NoDup (completions (onetime_0110 ["2024-01-10"] ["2024-01-11"])) /\
   NoDup (hiddenDates (onetime_0110 ["2024-01-10"] ["2024-01-11"]))) /\
  NoDup (completions (toggleTask "2024-01-12"
                        (onetime_0110 ["2024-01-10"] ["2024-01-11"]))) /\
  NoDup (hiddenDates (applyEdit (EDateCreated "2024-01-05")
                        (onetime_0110 ["2024-01-10"] ["2024-01-11"]))) /\
  NoDup (hiddenDates (executeDelete "2024-01-12"
                        (onetime_0110 ["2024-01-10"] ["2024-01-11"]))).
Proof.
  assert (Hc : NoDup (completions (onetime_0110 ["2024-01-10"] ["2024-01-11"]))).
  { simpl. constructor; [intros []|constructor]. }
  assert (Hh : NoDup (hiddenDates (onetime_0110 ["2024-01-10"] ["2024-01-11"]))).
  { simpl. constructor; [intros []|constructor]. }
  destruct (mutations_preserve_NoDup (onetime_0110 ["2024-01-10"] ["2024-01-11"])
              "2024-01-12" Hc Hh) as [[T _] [E [[_ D] _]]].
  split; [split; assumption|]. split; [exact T|]. split; [apply E|].
  apply D. simpl. intros [H|[]]. discriminate.
Defined.

Lemma toggle_in (d : string) (t : Task) :
  In d (completions t) ->
  toggleTask d t = with_completions t (remove_first d (completions t)).
Proof.
  intros H. unfold toggleTask. apply includes_In in H. rewrite H. reflexivity.
Qed.

Lemma toggle_notin (d : string) (t : Task) :
  ~ In d (completions t) ->
  toggleTask d t = with_completions t (completions t ++ [d])%list.
Proof.
  intros H. unfold toggleTask. apply includes_false in H. rewrite H. reflexivity.
Qed.

(** C5 (counterexample): with completions [[d; e]], toggling [d] twice
    yields [[e; d]]: the date comes back at the end of the list. *)
Lemma toggle_twice_reorders_counterexample :
  toggleTask "2024-01-10"
    (toggleTask "2024-01-10" (onetime_0110 ["2024-01-10"; "2024-01-11"] []))
  <> onetime_0110 ["2024-01-10"; "2024-01-11"] [].
Proof. vm_compute. intros H. inversion H. Qed.

(** C5 (amended): toggling the same date twice gives the task back when the
    date was not completed; when it was (and the completions hold no
    duplicate), only the order of the completions changes: the date moves
    to the end, and the result is a permutation of the original. *)
Theorem toggle_twice (d : string) (t : Task) :
  (~ In d (completions t) -> toggleTask d (toggleTask d t) = t) /\
  (NoDup (completions t) -> In d (completions t) ->
   completions (toggleTask d (toggleTask d t))
     = (remove_first d (completions t) ++ [d])%list /\
   Permutation (completions (toggleTask d (toggleTask d t))) (completions t) /\
   with_completions (toggleTask d (toggleTask d t)) (completions t) = t).
Proof.
  split.
  - intros Hn. rewrite (toggle_notin d t Hn).
    rewrite toggle_in by (simpl; apply in_or_app; right; left; reflexivity).
    simpl. rewrite remove_first_app_last by exact Hn. task_eta.
  - intros Hnd Hin. rewrite (toggle_in d t Hin).
    rewrite toggle_notin by (simpl; apply remove_first_NoDup_notin, Hnd).
    simpl. split; [reflexivity|]. split; [|task_eta].
    eapply perm_trans; [apply Permutation_sym, Permutation_cons_append|].
    apply Permutation_sym, remove_first_perm, Hin.
Qed.

(** C6: in part_001 (and part_000) a move appends the date it leaves to
    [hiddenDates] but never un-hides the date it moves to.  Moving a
    one-time task forward from today ("2024-01-10") and then back from
    "2024-01-11" restores [dateCreated] but leaves "2024-01-10" hidden, so
    the task is no longer shown on its own date. *)
Theorem move_roundtrip_leaves_hidden :
  let t0 := onetime_0110 [] [] in
  let after := executeMoveTask "2024-01-10" "2024-01-11" 2
                 (executeMoveTask "2024-01-10" "2024-01-10" 2 [t0]) in
  after = [mkTask 2 "report" OneTime Work "2024-01-10" []
             ["2024-01-10"; "2024-01-11"] WUndefined None None] /\
  map (fun t => shouldShowTask "2024-01-10" t "2024-01-10") after = [false].
Proof. vm_compute. split; reflexivity. Qed.

(** The App.tsx revision of the same move un-hides the target date, and
    on the same input the round trip restores the task. *)
Example move_roundtrip_App :
  executeMoveTask_App "2024-01-10" "2024-01-11" 2
    (executeMoveTask_App "2024-01-10" "2024-01-10" 2 [onetime_0110 [] []])
  = [mkTask 2 "report" OneTime Work "2024-01-10" [] ["2024-01-11"]
       WUndefined None None].
Proof. vm_compute. reflexivity. Qed.

(** ** Ticker *)

(** C8: a drift of 1500 ms resets [expected], but the timeout is still
    computed from the stale drift, [max(0, 1000 - 1500) = 0]: the next run
    fires at once, so two ticks fire at the same instant (then 2000 ms
    pass before the third). *)
Theorem ticker_resync_double_tick (N : Z) :
  step (N - 1500) N = mkStepOut 1 (N + 1000) 0 /\
  tick_times [0; 0; 0] (N - 1500) N = [N; N; N + 2000].
Proof.
  assert (H1 : step (N - 1500) N = mkStepOut 1 (N + 1000) 0).
  { unfold step. replace (N - (N - 1500)) with 1500 by lia. reflexivity. }
  assert (H2 : step (N + 1000) (N + 0 + 0) = mkStepOut 1 (N + 2000) 2000).
  { unfold step. replace (N + 0 + 0 - (N + 1000)) with (-1000) by lia.
    simpl. f_equal. lia. }
  split; [exact H1|].
  cbn [tick_times]. rewrite H1. cbn [expected' delay]. rewrite H2.
  cbn [expected' delay]. rewrite !Z.add_0_r. reflexivity.
Qed.

(** Without drift beyond the threshold the step keeps the grid:
    [expected] advances by 1000 and the timeout is [max(0, 1000 - dt)]. *)
Lemma step_no_resync (expected now : Z) :
  now - expected <= 1000 ->
  step expected now = mkStepOut 1 (expected + 1000) (Z.max 0 (1000 - (now - expected))).
Proof.
  intros H. unfold step. destruct (1000 <? now - expected) eqn:E; [lia|].
  reflexivity.
Qed.

(** ** Sort and view composer *)

Example week_view_order :
  map id (sortedVisibleTasks "2024-01-10" WeekView "2024-01-10"
            [rec_old; wk_fri; ot_today; ot_today2]) = [12; 9; 10; 11].
Proof. vm_compute. reflexivity. Qed.











(** ** Insertion sort *)

Section Sorting.
Variable cmp : Task -> Task -> Z.
Variable lt : Task -> Task -> Prop.
Hypothesis cmp_lt : forall a b, cmp a b < 0 <-> lt a b.
Hypothesis lt_trans : forall a b c, lt a b -> lt b c -> lt a c.
Hypothesis lt_total : forall a b, id a <> id b -> lt a b \/ lt b a.




End Sorting.



(** ** Visible tasks and their sort dates *)

Lemma NoDup_map_inj {A B : Type} (f : A -> B) (l : list A) (a b : A) :
  NoDup (map f l) -> In a l -> In b l -> f a = f b -> a = b.
Proof.
  induction l as [|x r IH]; simpl; intros Hnd Ha Hb Hf; [contradiction|].
  inversion Hnd as [|? ? Hx Hr]; subst.
  destruct Ha as [<-|Ha], Hb as [<-|Hb]; auto.
  - exfalso. apply Hx. rewrite Hf. apply in_map, Hb.
  - exfalso. apply Hx. rewrite <- Hf. apply in_map, Ha.
Qed.












(** ** Calendar *)

Lemma check_doe_all : check_doe_from 146097 0 = true.
Proof. vm_compute. reflexivity. Qed.

Lemma check_pad_ok : check_pad = true.
Proof. vm_compute. reflexivity. Qed.

Example streak_scenario_1 :
  calculateStreak [onetime_0110 ["2024-01-11"; "2024-01-12"] []] 19734 = 2.
Proof. vm_compute. reflexivity. Qed.

Lemma check_doe_from_spec (n : nat) (z : Z) :
  check_doe_from n z = true ->
  forall w, z <= w < z + Z.of_nat n -> check_doe w = true.
Proof.
  revert z; induction n as [|k IH]; intros z H w Hw; simpl in *; [lia|].
  apply andb_prop in H as [H1 H2].
  destruct (Z.eq_dec w z) as [->|Hne]; [exact H1|].
  apply (IH (z + 1) H2). lia.
Qed.

Lemma civil_of_doe_ok (doe : Z) :
  0 <= doe < 146097 ->
  let '(yoe, m, d) := civil_of_doe doe in
  0 <= yoe <= 399 /\ 1 <= m <= 12 /\ 1 <= d <= 31 /\ doe_of yoe m d = doe.
Proof.
  intros H.
  assert (C : check_doe doe = true).
  { apply (check_doe_from_spec _ _ check_doe_all).
    assert (E : Z.of_nat 146097 = 146097) by (vm_compute; reflexivity).
    rewrite E. lia. }
  unfold check_doe in C. destruct (civil_of_doe doe) as [[yoe m] d].
  rewrite !andb_true_iff, !Z.leb_le, Z.eqb_eq in C. lia.
Qed.

Lemma days_from_civil_era (yoe era m d : Z) :
  0 <= yoe <= 399 ->
  days_from_civil (yoe + era * 400 + (if m <=? 2 then 1 else 0)) m d
  = era * 146097 + doe_of yoe m d - 719468.
Proof.
  intros Hy. unfold days_from_civil, doe_of. cbv zeta.
  assert (Y : (if m <=? 2 then yoe + era * 400 + (if m <=? 2 then 1 else 0) - 1
               else yoe + era * 400 + (if m <=? 2 then 1 else 0))
              = yoe + era * 400) by (destruct (m <=? 2); lia).
  rewrite Y.
  assert (D : (yoe + era * 400) / 400 = era).
  { rewrite Z.div_add by lia. rewrite Z.div_small by lia. lia. }
  rewrite D. replace (yoe + era * 400 - era * 400) with yoe by ring. ring.
Qed.

(** [civil_from_days] is inverted by [days_from_civil] and yields a month
    in 1..12 and a day in 1..31. *)
Lemma civil_roundtrip (z : Z) :
  let '(y, m, d) := civil_from_days z in
  days_from_civil y m d = z /\ 1 <= m <= 12 /\ 1 <= d <= 31.
Proof.
  unfold civil_from_days.
  assert (B : 0 <= (z + 719468) mod 146097 < 146097) by (apply Z.mod_pos_bound; lia).
  pose proof (civil_of_doe_ok _ B) as C.
  destruct (civil_of_doe ((z + 719468) mod 146097)) as [[yoe m] d].
  destruct C as (Hy & Hm & Hd & Hdoe).
  rewrite days_from_civil_era by exact Hy. rewrite Hdoe.
  pose proof (Z.div_mod (z + 719468) 146097 ltac:(lia)). lia.
Qed.

Lemma string_length_app (s t : string) :
  String.length (s ++ t) = (String.length s + String.length t)%nat.
Proof. induction s as [|a s IH]; simpl; auto. Qed.

Lemma str_app_inv (s1 s2 t1 t2 : string) :
  String.length t1 = String.length t2 -> s1 ++ t1 = s2 ++ t2 ->
  s1 = s2 /\ t1 = t2.
Proof.
  intros Hl H.
  assert (Hs : String.length s1 = String.length s2).
  { apply (f_equal String.length) in H. rewrite !string_length_app in H. lia. }
  revert s2 Hs H. induction s1 as [|a s1 IH]; intros [|b s2] Hs H;
    simpl in *; try discriminate Hs.
  - auto.
  - injection H as -> H. injection Hs as Hs.
    destruct (IH s2 Hs H) as [-> ->]. auto.
Qed.

Lemma string_of_Z_inj (a b : Z) : string_of_Z a = string_of_Z b -> a = b.
Proof.
  unfold string_of_Z. intros H.
  apply (f_equal NilEmpty.int_of_string) in H. rewrite !NilEmpty.isi in H.
  injection H as H.
  rewrite <- (DecimalZ.of_to a), <- (DecimalZ.of_to b), H. reflexivity.
Qed.

Lemma in_days_1_31 (a : Z) : 1 <= a <= 31 -> In a days_1_31.
Proof.
  intros H. unfold days_1_31. apply in_map_iff. exists (Z.to_nat a).
  split; [lia|]. apply in_seq. lia.
Qed.

Lemma pad_spec (a b : Z) :
  1 <= a <= 31 -> 1 <= b <= 31 ->
  String.eqb (padStart2 (string_of_Z a)) (padStart2 (string_of_Z b)) = (a =? b)
  /\ String.length (padStart2 (string_of_Z a)) = 2%nat.
Proof.
  intros Ha Hb. pose proof check_pad_ok as C. unfold check_pad in C.
  rewrite forallb_forall in C. specialize (C a (in_days_1_31 a Ha)).
  rewrite forallb_forall in C. specialize (C b (in_days_1_31 b Hb)).
  apply andb_prop in C as [C1 C2].
  split; [apply eqb_prop, C1 | apply Nat.eqb_eq, C2].
Qed.

(** [getLocalISO] gives distinct days distinct strings. *)
Lemma getLocalISO_inj (a b : Z) :
  getLocalISO (Some a) = getLocalISO (Some b) -> a = b.
Proof.
  intros H. pose proof (civil_roundtrip a) as Ra. pose proof (civil_roundtrip b) as Rb.
  unfold getLocalISO in H.
  destruct (civil_from_days a) as [[ya ma] da], (civil_from_days b) as [[yb mb] db].
  destruct Ra as (Ra & Hma & Hda), Rb as (Rb & Hmb & Hdb).
  destruct (pad_spec ma mb) as [Em Lma]; try lia.
  destruct (pad_spec mb mb) as [_ Lmb]; try lia.
  destruct (pad_spec da db) as [Ed Lda]; try lia.
  destruct (pad_spec db db) as [_ Ldb]; try lia.
  apply str_app_inv in H as [Hy H].
  2: { simpl. rewrite !string_length_app. simpl. rewrite Lma, Lmb, Lda, Ldb. reflexivity. }
  injection H as H. apply str_app_inv in H as [Hm H].
  2: { simpl. rewrite Lda, Ldb. reflexivity. }
  injection H as Hd.
  apply string_of_Z_inj in Hy.
  rewrite Hm, String.eqb_refl in Em. symmetry in Em. apply Z.eqb_eq in Em.
  rewrite Hd, String.eqb_refl in Ed. symmetry in Ed. apply Z.eqb_eq in Ed.
  subst. congruence.
Qed.

(** ** Streak loop *)

Lemma NoDup_map_injective {A B : Type} (f : A -> B) (l : list A) :
  (forall x y, f x = f y -> x = y) -> NoDup l -> NoDup (map f l).
Proof.
  intros Hf Hl. induction Hl as [|x l Hx Hl IH]; simpl; constructor; auto.
  intros Hin. apply in_map_iff in Hin as (y & Hy & Hin).
  apply Hf in Hy. subst. contradiction.
Qed.

Lemma countBack_spec (fuel : nat) (U : list string) (day : Z) :
  0 <= countBack fuel U day <= Z.of_nat fuel /\
  (forall i, 0 <= i < countBack fuel U day ->
     In (getLocalISO (Some (day - i))) U) /\
  (countBack fuel U day < Z.of_nat fuel ->
     ~ In (getLocalISO (Some (day - countBack fuel U day))) U).
Proof.
  revert day; induction fuel as [|f IH]; intros day; cbn [countBack].
  - split; [lia|]. split; intros; lia.
  - rewrite Nat2Z.inj_succ.
    destruct (includes U (getLocalISO (Some day))) eqn:Hin.
    + destruct (IH (day - 1)) as (B & A & G).
      split; [lia|]. split.
      * intros i Hi. destruct (Z.eq_dec i 0) as [->|Hne].
        { rewrite Z.sub_0_r. apply includes_In, Hin. }
        replace (day - i) with (day - 1 - (i - 1)) by ring. apply A. lia.
      * intros Hlt. replace (day - (1 + countBack f U (day - 1)))
          with (day - 1 - countBack f U (day - 1)) by ring.
        apply G. lia.
    + split; [lia|]. split; [intros; lia|].
      intros _. rewrite Z.sub_0_r. apply includes_false, Hin.
Qed.

(** With more iterations than dates in [U], the loop always stops at a
    date that is not in [U]: the [|U| + 1] iterations never run out. *)
Lemma countBack_stops (fuel : nat) (U : list string) (day : Z) :
  (List.length U < fuel)%nat -> countBack fuel U day < Z.of_nat fuel.
Proof.
  intros Hf. destruct (countBack_spec fuel U day) as (B & A & _).
  destruct (Z.eq_dec (countBack fuel U day) (Z.of_nat fuel)) as [E|]; [|lia].
  exfalso.
  set (l := map (fun k => getLocalISO (Some (day - Z.of_nat k))) (seq 0 fuel)).
  assert (Hnd : NoDup l).
  { apply NoDup_map_injective; [|apply seq_NoDup].
    intros x y Hxy. apply getLocalISO_inj in Hxy. lia. }
  assert (Hincl : incl l U).
  { intros s Hs. apply in_map_iff in Hs as (k & <- & Hk).
    apply in_seq in Hk. apply A. lia. }
  pose proof (NoDup_incl_length Hnd Hincl) as HL.
  unfold l in HL. rewrite length_map, length_seq in HL. lia.
Qed.

Lemma calculateStreak_unfold (tasks : list Task) (nowDay : Z) :
  uniqueDates tasks <> [] ->
  calculateStreak tasks nowDay =
  let U := uniqueDates tasks in
  if negb (includes U (getLocalISO (Some nowDay)))
     && negb (includes U (getLocalISO (Some (nowDay - 1)))) then 0
  else countBack (S (List.length U)) U
         (if includes U (getLocalISO (Some nowDay)) then nowDay else nowDay - 1).
Proof.
  intros H. unfold calculateStreak. cbv zeta.
  destruct (uniqueDates tasks) as [|s l]; [congruence|].
  unfold addDays. replace (nowDay + -1) with (nowDay - 1) by ring.
  reflexivity.
Qed.

Lemma calculateStreak_counts (tasks : list Task) (nowDay : Z) :
  let U := uniqueDates tasks in
  (In (getLocalISO (Some nowDay)) U \/ In (getLocalISO (Some (nowDay - 1))) U) ->
  let start := if includes U (getLocalISO (Some nowDay)) then nowDay else nowDay - 1 in
  let n := calculateStreak tasks nowDay in
  1 <= n /\ (forall i, 0 <= i < n -> In (getLocalISO (Some (start - i))) U) /\
  ~ In (getLocalISO (Some (start - n))) U.
Proof.
  intros U Hany start n.
  assert (Hne : U <> []) by (intros E; rewrite E in Hany; destruct Hany as [[]|[]]).
  assert (Hstart : In (getLocalISO (Some start)) U).
  { unfold start. destruct (includes U (getLocalISO (Some nowDay))) eqn:Ht.
    - apply includes_In, Ht.
    - apply includes_false in Ht. destruct Hany; [contradiction|assumption]. }
  assert (En : n = countBack (S (List.length U)) U start).
  { unfold n. rewrite calculateStreak_unfold by exact Hne. cbv zeta. fold U.
    fold start.
    destruct Hany as [Hin|Hin]; apply includes_In in Hin; rewrite Hin;
      [reflexivity|]. rewrite andb_false_r. reflexivity. }
  destruct (countBack_spec (S (List.length U)) U start) as (B & A & G).
  pose proof (countBack_stops (S (List.length U)) U start ltac:(lia)) as Hs.
  rewrite En. split; [|split; [exact A | apply G, Hs]].
  destruct (Z.eq_dec (countBack (S (List.length U)) U start) 0) as [E0|]; [|lia].
  exfalso. apply (G ltac:(lia)). rewrite E0, Z.sub_0_r. exact Hstart.
Qed.

(** C9: with [U] the dates of all tasks' completions, the streak is 0
    when neither today nor yesterday is in [U]; otherwise, from [start]
    (today if today is in [U], else yesterday) it is the number [n >= 1]
    of consecutive days [start, start - 1, ...] in [U], the day
    [start - n] being the first gap.  So completions on exactly
    {yesterday, today} give 2 and completions on exactly {today - 2}
    give 0. *)
Theorem calculateStreak_spec (tasks : list Task) (nowDay : Z) :
  let U := uniqueDates tasks in
  let today := getLocalISO (Some nowDay) in
  let yesterday := getLocalISO (Some (nowDay - 1)) in
  ((~ In today U /\ ~ In yesterday U) -> calculateStreak tasks nowDay = 0) /\
  ((In today U \/ In yesterday U) ->
   let start := if includes U today then nowDay else nowDay - 1 in
   let n := calculateStreak tasks nowDay in
   1 <= n /\ (forall i, 0 <= i < n -> In (getLocalISO (Some (start - i))) U) /\
   ~ In (getLocalISO (Some (start - n))) U) /\
  ((forall s, In s U <-> s = yesterday \/ s = today) ->
   calculateStreak tasks nowDay = 2) /\
  ((forall s, In s U <-> s = getLocalISO (Some (nowDay - 2))) ->
   calculateStreak tasks nowDay = 0).
Proof.
  cbv zeta.
  assert (P1 : ~ In (getLocalISO (Some nowDay)) (uniqueDates tasks) /\
               ~ In (getLocalISO (Some (nowDay - 1))) (uniqueDates tasks) ->
               calculateStreak tasks nowDay = 0).
  { intros [H1 H2].
    destruct (uniqueDates tasks) as [|s l] eqn:E.
    - unfold calculateStreak. cbv zeta. rewrite E. reflexivity.
    - rewrite calculateStreak_unfold by congruence. cbv zeta. rewrite E.
      apply includes_false in H1, H2. rewrite H1, H2. reflexivity. }
  split; [exact P1|]. split; [exact (calculateStreak_counts tasks nowDay)|].
  split.
  - intros HU.
    assert (Ht : In (getLocalISO (Some nowDay)) (uniqueDates tasks))
      by (apply HU; right; reflexivity).
    destruct (calculateStreak_counts tasks nowDay (or_introl Ht)) as (B & A & G).
    cbv zeta in A, G. rewrite (proj2 (includes_In _ _) Ht) in A, G.
    destruct (Z.eq_dec (calculateStreak tasks nowDay) 1) as [E1|].
    { exfalso. apply G. rewrite E1. apply HU. left. reflexivity. }
    destruct (Z.eq_dec (calculateStreak tasks nowDay) 2) as [E2|]; [exact E2|].
    exfalso. specialize (A 2 ltac:(lia)). apply HU in A.
    destruct A as [A|A]; apply getLocalISO_inj in A; lia.
  - intros HU. apply P1. split; intros H; apply HU in H;
      apply getLocalISO_inj in H; lia.
Qed.

Lemma calculateStreak_spec_witness :
  calculateStreak [onetime_0110 ["2024-01-11"; "2024-01-12"] []] 19734 = 2.
Proof.
  refine (proj1 (proj2 (proj2 (calculateStreak_spec
            [onetime_0110 ["2024-01-11"; "2024-01-12"] []] 19734))) _).
  intros s. vm_compute. split.
  - intros [<-|[<-|[]]]; auto.
  - intros [<-|<-]; auto.
Defined.

(* ================================================================== *)
(** * Further properties of the utilities and components *)

(** ** [escapeHtml] *)

Lemma str_app_assoc (x y z : string) : (x ++ y) ++ z = x ++ (y ++ z).
Proof. induction x as [|a x IH]; simpl; [reflexivity|]. rewrite IH. reflexivity. Qed.

Lemma replace_all_app (c : ascii) (r x y : string) :
  replace_all c r (x ++ y) = replace_all c r x ++ replace_all c r y.
Proof.
  induction x as [|a x IH]; simpl; [reflexivity|].
  destruct (Ascii.eqb a c); rewrite IH; [rewrite str_app_assoc|]; reflexivity.
Qed.

Lemma esc_chain_char (a : ascii) :
  replace_all "'"%char "&#039;" (replace_all dquote "&quot;"
    (replace_all ">"%char "&gt;" (replace_all "<"%char "&lt;"
      (replace_all "&"%char "&amp;" (String a EmptyString))))) = esc_char a.
Proof.
  unfold esc_char.
  destruct (Ascii.eqb_spec a "&"%char) as [->|A1]; [reflexivity|].
  destruct (Ascii.eqb_spec a "<"%char) as [->|A2]; [reflexivity|].
  destruct (Ascii.eqb_spec a ">"%char) as [->|A3]; [reflexivity|].
  destruct (Ascii.eqb_spec a dquote) as [->|A4]; [reflexivity|].
  destruct (Ascii.eqb_spec a "'"%char) as [->|A5]; [reflexivity|].
  repeat (simpl; match goal with
                 | |- context [Ascii.eqb a ?c] =>
                     destruct (Ascii.eqb_spec a c); [congruence|]
                 end).
  reflexivity.
Qed.

Lemma escapeHtml_esc_all (s : string) : escapeHtml s = esc_all s.
Proof.
  assert (C : forall s,
    replace_all "'"%char "&#039;" (replace_all dquote "&quot;"
      (replace_all ">"%char "&gt;" (replace_all "<"%char "&lt;"
        (replace_all "&"%char "&amp;" s)))) = esc_all s).
  { induction s0 as [|a r IH]; [reflexivity|].
    change (String a r) with (String a EmptyString ++ r).
    rewrite !replace_all_app, IH, esc_chain_char. reflexivity. }
  destruct s as [|a r]; [reflexivity|]. apply C.
Qed.

Lemma list_ascii_app (x y : string) :
  list_ascii_of_string (x ++ y) = (list_ascii_of_string x ++ list_ascii_of_string y)%list.
Proof. induction x as [|a x IH]; simpl; [reflexivity|]. rewrite IH. reflexivity. Qed.

Lemma esc_char_safe (b a : ascii) :
  In a (list_ascii_of_string (esc_char b)) ->
  a <> "<"%char /\ a <> ">"%char /\ a <> dquote /\ a <> "'"%char.
Proof.
  unfold esc_char.
  destruct (Ascii.eqb_spec b "&"%char) as [->|A1];
  [|destruct (Ascii.eqb_spec b "<"%char) as [->|A2];
  [|destruct (Ascii.eqb_spec b ">"%char) as [->|A3];
  [|destruct (Ascii.eqb_spec b dquote) as [->|A4];
  [|destruct (Ascii.eqb_spec b "'"%char) as [->|A5]]]]];
  simpl; intros H; repeat destruct H as [<-|H]; try contradiction;
  first [solve [repeat split; assumption]
        | vm_compute; repeat split; discriminate].
Qed.

Lemma esc_char_cons (b : ascii) : exists h t, esc_char b = String h t.
Proof.
  unfold esc_char.
  destruct (Ascii.eqb b "&"%char); [eexists; eexists; reflexivity|].
  destruct (Ascii.eqb b "<"%char); [eexists; eexists; reflexivity|].
  destruct (Ascii.eqb b ">"%char); [eexists; eexists; reflexivity|].
  destruct (Ascii.eqb b dquote); [eexists; eexists; reflexivity|].
  destruct (Ascii.eqb b "'"%char); eexists; eexists; reflexivity.
Qed.

Lemma esc_char_prefix (a b : ascii) (X Y : string) :
  esc_char a ++ X = esc_char b ++ Y -> a = b /\ X = Y.
Proof.
  unfold esc_char.
  destruct (Ascii.eqb_spec a "&"%char) as [->|A1];
  [|destruct (Ascii.eqb_spec a "<"%char) as [->|A2];
  [|destruct (Ascii.eqb_spec a ">"%char) as [->|A3];
  [|destruct (Ascii.eqb_spec a dquote) as [->|A4];
  [|destruct (Ascii.eqb_spec a "'"%char) as [->|A5]]]]];
  (destruct (Ascii.eqb_spec b "&"%char) as [->|B1];
  [|destruct (Ascii.eqb_spec b "<"%char) as [->|B2];
  [|destruct (Ascii.eqb_spec b ">"%char) as [->|B3];
  [|destruct (Ascii.eqb_spec b dquote) as [->|B4];
  [|destruct (Ascii.eqb_spec b "'"%char) as [->|B5]]]]]);
  simpl; intros H; inversion H; subst; auto; congruence.
Qed.

Lemma esc_all_inj (s1 s2 : string) : esc_all s1 = esc_all s2 -> s1 = s2.
Proof.
  revert s2; induction s1 as [|a r1 IH]; intros [|b r2] H; simpl in H.
  - reflexivity.
  - destruct (esc_char_cons b) as (h & t & E). rewrite E in H. discriminate.
  - destruct (esc_char_cons a) as (h & t & E). rewrite E in H. discriminate.
  - apply esc_char_prefix in H as [-> H]. rewrite (IH r2 H). reflexivity.
Qed.

(** ** Date strings *)

Lemma nodash_split (s X : string) :
  nodash s = true -> split_dash (s ++ String "-" X) = s :: split_dash X.
Proof.
  induction s as [|c r IH]; intros H; simpl; [reflexivity|].
  unfold nodash in H; simpl in H.
  destruct (Ascii.eqb c "-"%char); [discriminate|].
  rewrite IH by exact H. reflexivity.
Qed.

Lemma nodash_split_end (s : string) : nodash s = true -> split_dash s = [s].
Proof.
  induction s as [|c r IH]; intros H; simpl; [reflexivity|].
  unfold nodash in H; simpl in H.
  destruct (Ascii.eqb c "-"%char); [discriminate|].
  rewrite IH by exact H. reflexivity.
Qed.

Lemma string_of_uint_nodash (u : Decimal.uint) :
  nodash (NilEmpty.string_of_uint u) = true.
Proof. induction u; unfold nodash in *; simpl; auto. Qed.

Lemma Number_string_of_Z (y : Z) :
  0 <= y -> Number (string_of_Z y) = Some y /\ nodash (string_of_Z y) = true.
Proof.
  destruct y as [|p|p]; intros Hy; [split; reflexivity| |lia].
  unfold string_of_Z, Number. cbn [Z.to_int NilEmpty.string_of_int].
  split; [|apply string_of_uint_nodash].
  rewrite NilEmpty.usu. cbn [option_map]. unfold N.of_uint.
  rewrite DecimalPos.Unsigned.of_to. reflexivity.
Qed.

Lemma check_fields_ok : check_fields = true.
Proof. vm_compute. reflexivity. Qed.

Lemma pad_field (k : Z) :
  1 <= k <= 31 ->
  nodash (padStart2 (string_of_Z k)) = true /\
  Number (padStart2 (string_of_Z k)) = Some k.
Proof.
  intros Hk. pose proof check_fields_ok as C. unfold check_fields in C.
  rewrite forallb_forall in C. specialize (C k (in_days_1_31 k Hk)).
  unfold pad_field_ok in C. apply andb_prop in C as [C1 C2]. split; [exact C1|].
  destruct (Number (padStart2 (string_of_Z k))) as [v|]; [|discriminate].
  apply Z.eqb_eq in C2. subst. reflexivity.
Qed.

Lemma days_from_civil_day (y m d : Z) :
  days_from_civil y m d = days_from_civil y m 1 + d - 1.
Proof. unfold days_from_civil. cbv zeta. ring. Qed.

(** ** Streak and level *)

Lemma totalWins_length (tasks : list Task) :
  totalWins tasks = Z.of_nat (List.length (uniqueDates tasks)).
Proof.
  unfold totalWins, uniqueDates.
  assert (G : forall acc, fold_left (fun acc t => acc + Z.of_nat (List.length (completions t)))
                            tasks acc
                          = acc + Z.of_nat (List.length (flat_map completions tasks))).
  { induction tasks as [|t r IH]; intros acc; simpl; [lia|].
    rewrite IH, length_app. lia. }
  rewrite G. lia.
Qed.

Lemma calculateStreak_bound (tasks : list Task) (nowDay : Z) :
  0 <= calculateStreak tasks nowDay <= Z.of_nat (List.length (uniqueDates tasks)).
Proof.
  destruct (uniqueDates tasks) as [|s l] eqn:E.
  - unfold calculateStreak. cbv zeta. rewrite E. simpl. lia.
  - rewrite calculateStreak_unfold by congruence. cbv zeta. rewrite E.
    destruct (_ && _); [simpl; lia|].
    set (st := if includes (s :: l) _ then nowDay else nowDay - 1).
    destruct (countBack_spec (S (List.length (s :: l))) (s :: l) st) as (B & _ & _).
    pose proof (countBack_stops (S (List.length (s :: l))) (s :: l) st ltac:(lia)).
    rewrite Nat2Z.inj_succ in *. lia.
Qed.

(** ** Trimming *)

Lemma trim_start_head (s : string) (c : ascii) (r : string) :
  trim_start s = String c r -> js_space c = false.
Proof.
  induction s as [|a s IH]; simpl; [discriminate|].
  destruct (js_space a) eqn:E; [exact IH|]. intros H. injection H as -> _. exact E.
Qed.

Lemma trim_head (s : string) (c : ascii) (r : string) :
  trim s = String c r -> js_space c = false.
Proof.
  unfold trim. destruct (trim_start s) as [|a t] eqn:E; simpl; [discriminate|].
  pose proof (trim_start_head s a t E) as Ha. rewrite Ha. simpl.
  intros H. injection H as -> _. exact Ha.
Qed.

Lemma substring_head (n : nat) (c : ascii) (r : string) :
  substring 0 (S n) (String c r) = String c (substring 0 n r).
Proof. reflexivity. Qed.

Lemma substring_prefix_len (n : nat) (s : string) :
  prefix (substring 0 n s) s = true /\ (String.length (substring 0 n s) <= n)%nat.
Proof.
  revert s; induction n as [|n IH]; intros [|c r]; simpl; auto.
  - split; [reflexivity|lia].
  - destruct (IH r) as [P L]. destruct (ascii_dec c c) as [_|N]; [|congruence].
    rewrite P. split; [reflexivity|lia].
Qed.

(** X1: [escapeHtml] replaces each character on its own ([&] by [&amp;],
    [<] by [&lt;], [>] by [&gt;], the double quote by [&quot;], ['] by
    [&#039;]) without escaping the entities it inserts a second time, and
    its output never contains [<], [>], a double quote or ['].  *)
Theorem escapeHtml_per_char (s : string) :
  escapeHtml s = esc_all s /\
  (forall a, In a (list_ascii_of_string (escapeHtml s)) ->
     a <> "<"%char /\ a <> ">"%char /\ a <> dquote /\ a <> "'"%char).
Proof.
  rewrite escapeHtml_esc_all. split; [reflexivity|].
  induction s as [|b r IH]; simpl; [contradiction|].
  intros a H. rewrite list_ascii_app in H. apply in_app_or in H as [H|H].
  - exact (esc_char_safe b a H).
  - exact (IH a H).
Qed.

(** X2: [escapeHtml] is injective: two texts that escape to the same
    string are equal. *)
Theorem escapeHtml_injective (s1 s2 : string) :
  escapeHtml s1 = escapeHtml s2 -> s1 = s2.
Proof. rewrite !escapeHtml_esc_all. apply esc_all_inj. Qed.

Lemma escapeHtml_injective_witness : "a<b" = "a<b".
Proof. apply escapeHtml_injective. reflexivity. Defined.

(** X3: [parseLocalDate] reads back what [getLocalISO] writes: for a day
    whose year [y] is at least 100 the round trip gives the same day; for
    a year 0..99, [new Date(y, ...)] reads the year as [1900 + y], so the
    round trip lands on the same month and day of year [1900 + y]. *)
Theorem parseLocalDate_getLocalISO (z y m d : Z) :
  civil_from_days z = (y, m, d) -> 0 <= y ->
  parseLocalDate (getLocalISO (Some z)) =
  Some (if y <=? 99 then days_from_civil (1900 + y) m d else z).
Proof.
  intros E Hy. pose proof (civil_roundtrip z) as R. rewrite E in R.
  destruct R as (R & Hm & Hd).
  destruct (Number_string_of_Z y Hy) as [Ny Dy].
  destruct (pad_field m) as [Dm Nm]; [lia|].
  destruct (pad_field d) as [Dd Nd]; [lia|].
  unfold getLocalISO. rewrite E. unfold parseLocalDate. cbn [append].
  rewrite (nodash_split _ _ Dy), (nodash_split _ _ Dm), (nodash_split_end _ Dd).
  rewrite Ny, Nm, Nd. unfold new_Date. cbv zeta.
  rewrite (Z.div_small (m - 1) 12) by lia. rewrite (Z.mod_small (m - 1) 12) by lia.
  replace (m - 1 + 1) with m by ring.
  rewrite (proj2 (Z.leb_le 0 y) Hy), !Z.add_0_r. simpl andb.
  destruct (y <=? 99).
  - rewrite (days_from_civil_day (1900 + y) m d). f_equal; lia.
  - rewrite <- R, (days_from_civil_day y m d). f_equal; lia.
Qed.

Lemma parseLocalDate_getLocalISO_witness :
  parseLocalDate (getLocalISO (Some 19732)) = Some 19732.
Proof.
  apply (parseLocalDate_getLocalISO 19732 2024 1 10); vm_compute;
    [reflexivity | discriminate].
Defined.

(** X4: the streak is never more than the total number of completions
    ([totalWins], the XP), and the XP always lies in the current level's
    band: [(level - 1) * 10 <= xp < level * 10]. *)
Theorem streak_le_totalWins (tasks : list Task) (nowDay : Z) :
  0 <= calculateStreak tasks nowDay <= totalWins tasks /\
  currentLevelXp (totalWins tasks) <= totalWins tasks < nextLevelXp (totalWins tasks).
Proof.
  rewrite totalWins_length. pose proof (calculateStreak_bound tasks nowDay).
  split; [lia|].
  unfold currentLevelXp, nextLevelXp, level.
  set (w := Z.of_nat (List.length (uniqueDates tasks))).
  assert (0 <= w) by lia.
  pose proof (Z.div_mod w 10 ltac:(lia)). pose proof (Z.mod_pos_bound w 10 ltac:(lia)).
  lia.
Qed.

(** X5: [updateTaskText] ignores a text that is blank after trimming;
    otherwise it stores on the task(s) with that id a text of 1 to 100
    characters, a prefix of the trimmed text that does not start with
    white space, and changes nothing else. *)
Theorem updateTaskText_spec (tid : Z) (txt : string) (tasks : list Task) :
  (trim txt = EmptyString -> updateTaskText tid txt tasks = tasks) /\
  (trim txt <> EmptyString ->
   exists s, updateTaskText tid txt tasks = update_task tid (applyEdit (EText s)) tasks /\
     (1 <= String.length s <= 100)%nat /\ prefix s (trim txt) = true /\
     (forall c r, s = String c r -> js_space c = false)).
Proof.
  unfold updateTaskText. split.
  - intros H. rewrite H. reflexivity.
  - intros H. destruct (trim txt) as [|c r] eqn:E; [congruence|].
    exists (substring 0 100 (String c r)). split; [reflexivity|].
    destruct (substring_prefix_len 100 (String c r)) as [P L].
    split; [|split; [exact P|]].
    + split; [|exact L]. rewrite substring_head. simpl. lia.
    + intros c' r' Hs. rewrite substring_head in Hs. injection Hs as <- _.
      exact (trim_head txt c r E).
Qed.

Lemma updateTaskText_spec_witness :
  updateTaskText 1 "  " [weekly_monday] = [weekly_monday].
Proof. apply (proj1 (updateTaskText_spec 1 "  " [weekly_monday])). reflexivity. Defined.

(** ** Alarm check *)

Lemma includes_set_add (s : list string) (x y : string) :
  includes (set_add s x) y = includes s y || String.eqb y x.
Proof.
  unfold set_add. destruct (includes s x) eqn:E.
  - destruct (String.eqb_spec y x) as [->|_].
    + rewrite E. reflexivity.
    + rewrite orb_false_r. reflexivity.
  - unfold includes. rewrite existsb_app. simpl. rewrite orb_false_r.
    reflexivity.
Qed.

Lemma notificationKey_inj (todayISO hm : string) (t1 t2 : Task) :
  notificationKey t1 todayISO hm = notificationKey t2 todayISO hm ->
  id t1 = id t2.
Proof.
  unfold notificationKey. intros H.
  apply str_app_inv in H as [H _]; [apply string_of_Z_inj, H | reflexivity].
Qed.

Lemma checkAlarms_inv (todayISO hm : string) (tasks : list Task) :
  forall notified fired n',
  checkAlarms todayISO hm tasks notified = (fired, n') ->
  (forall t, In t fired -> In t tasks /\ alarm_due todayISO hm t = true /\
     includes notified (notificationKey t todayISO hm) = false) /\
  NoDup (map (fun t => notificationKey t todayISO hm) fired) /\
  (forall k, includes notified k = true -> includes n' k = true) /\
  (forall t, In t tasks -> alarm_due todayISO hm t = true ->
     includes n' (notificationKey t todayISO hm) = true).
Proof.
  induction tasks as [|t rest IH]; intros notified fired n' E; simpl in E.
  - injection E as <- <-. split; [intros t []|].
    split; [constructor|]. split; [auto|]. intros t [].
  - set (kt := notificationKey t todayISO hm) in *.
    destruct (alarm_due todayISO hm t && negb (includes notified kt)) eqn:C.
    + destruct (checkAlarms todayISO hm rest (set_add notified kt))
        as [f1 n1] eqn:E1.
      injection E as <- <-. destruct (IH _ _ _ E1) as (S & N & M & A).
      apply andb_prop in C as [Cd Cn]. apply negb_true_iff in Cn.
      split; [|split; [|split]].
      * intros t' [<-|H]; [split; [left; reflexivity | auto]|].
        destruct (S t' H) as (Hin & Hd & Hn).
        rewrite includes_set_add, orb_false_iff in Hn.
        split; [right; exact Hin | split; [exact Hd | apply Hn]].
      * simpl. constructor; [|exact N].
        intros Hin. apply in_map_iff in Hin as (t' & Ht' & Hin).
        destruct (S t' Hin) as (_ & _ & Hn).
        rewrite includes_set_add, Ht', String.eqb_refl, orb_true_r in Hn.
        discriminate.
      * intros k Hk. apply M. rewrite includes_set_add, Hk. reflexivity.
      * intros t' [<-|H] Hd; [|apply A; assumption].
        apply M. rewrite includes_set_add, String.eqb_refl, orb_true_r.
        reflexivity.
    + destruct (IH _ _ _ E) as (S & N & M & A).
      split; [|split; [exact N|split; [exact M|]]].
      * intros t' H. destruct (S t' H) as (Hin & R).
        split; [right; exact Hin | exact R].
      * intros t' [<-|H] Hd; [|apply A; assumption].
        rewrite Hd in C. simpl in C. apply negb_false_iff in C.
        apply M, C.
Qed.

Lemma checkAlarms_quiet (todayISO hm : string) (tasks : list Task) :
  forall N,
  (forall t, In t tasks -> alarm_due todayISO hm t = true ->
     includes N (notificationKey t todayISO hm) = true) ->
  fst (checkAlarms todayISO hm tasks N) = [].
Proof.
  induction tasks as [|t rest IH]; intros N H; simpl; [reflexivity|].
  destruct (alarm_due todayISO hm t) eqn:Cd; simpl.
  - rewrite (H t (or_introl eq_refl) Cd). simpl.
    apply IH. intros t' Hin. apply H. right. exact Hin.
  - apply IH. intros t' Hin. apply H. right. exact Hin.
Qed.

(** ** Reordering *)

Lemma idMap_get_some (prev : list Task) (k : Z) (t : Task) :
  idMap_get prev k = Some t -> In t prev /\ id t = k.
Proof.
  unfold idMap_get. intros H. apply find_some in H as [Hin Hk].
  apply in_rev in Hin. apply Z.eqb_eq in Hk. auto.
Qed.

Lemma idMap_get_in (prev : list Task) (x : Task) :
  NoDup (map id prev) -> In x prev -> idMap_get prev (id x) = Some x.
Proof.
  intros Hnd Hx. destruct (idMap_get prev (id x)) as [y|] eqn:E.
  - apply idMap_get_some in E as [Hy Hid].
    f_equal. apply (NoDup_map_inj id prev); assumption.
  - unfold idMap_get in E. apply in_rev in Hx.
    apply (find_none _ _ E x) in Hx. rewrite Z.eqb_refl in Hx. discriminate.
Qed.

Lemma reordered_ids (prev : list Task) (l : list Z) :
  incl l (map id prev) ->
  map id (flat_map (fun k => match idMap_get prev k with
                             | Some t => [t]
                             | None => []
                             end) l) = l.
Proof.
  induction l as [|k l IH]; intros Hl; simpl; [reflexivity|].
  destruct (idMap_get prev k) as [t|] eqn:E.
  - apply idMap_get_some in E as [_ <-]. simpl.
    f_equal. apply IH. intros a Ha. apply Hl. right. exact Ha.
  - exfalso. destruct (in_map_iff id prev k) as [H _].
    destruct (H (Hl k (or_introl eq_refl))) as (x & Hx & Hin).
    unfold idMap_get in E. apply in_rev in Hin.
    apply (find_none _ _ E x) in Hin. rewrite Hx, Z.eqb_refl in Hin.
    discriminate.
Qed.

Lemma map_id_filter (p : Z -> bool) (l : list Task) :
  map id (filter (fun t => p (id t)) l) = filter p (map id l).
Proof.
  induction l as [|t l IH]; simpl; [reflexivity|].
  destruct (p (id t)); simpl; rewrite IH; reflexivity.
Qed.

(** ** Cycling *)

Lemma update_task_compose (tid : Z) (f g : Task -> Task) (tasks : list Task) :
  (forall t, id (g t) = id t) ->
  update_task tid f (update_task tid g tasks) =
  update_task tid (fun t => f (g t)) tasks.
Proof.
  intros Hg. unfold update_task. rewrite map_map. apply map_ext. intros t.
  destruct (id t =? tid) eqn:E; [rewrite Hg, E|rewrite E]; reflexivity.
Qed.

Lemma update_task_id (tid : Z) (f : Task -> Task) (tasks : list Task) :
  (forall t, f t = t) -> update_task tid f tasks = tasks.
Proof.
  intros Hf. unfold update_task. rewrite <- (map_id tasks) at 2.
  apply map_ext. intros t. destruct (id t =? tid); auto.
Qed.

(** ** Times of day *)

Lemma in_hours (h : Z) : 0 <= h <= 23 -> In h hours_0_23.
Proof.
  intros H. unfold hours_0_23. apply in_map_iff. exists (Z.to_nat h).
  split; [lia|]. apply in_seq. lia.
Qed.

Lemma in_minutes (m : Z) : 0 <= m <= 59 -> In m minutes_0_59.
Proof.
  intros H. unfold minutes_0_59. apply in_map_iff. exists (Z.to_nat m).
  split; [lia|]. apply in_seq. lia.
Qed.

Lemma check_snooze_ok : check_snooze = true.
Proof. vm_compute. reflexivity. Qed.

Lemma check_wheel_ok : check_wheel = true.
Proof. vm_compute. reflexivity. Qed.

Lemma hhmm_nonempty (h m : Z) : String.eqb (hhmm h m) EmptyString = false.
Proof.
  unfold hhmm, padStart2.
  destruct (String.length (string_of_Z h)) as [|[|n]] eqn:E; simpl;
    [reflexivity|reflexivity|].
  destruct (string_of_Z h); [discriminate|reflexivity].
Qed.

(** ** Calendar cells *)

Lemma nodash_split_lit (s X : string) :
  nodash s = true -> split_dash (s ++ "-" ++ X) = s :: split_dash X.
Proof. exact (nodash_split s X). Qed.

(** X6: in one alarm check every task that fires is a task of the list,
    due now (shown today, not completed today, timed at this minute) and
    not notified before; no task id fires twice. *)
Theorem checkAlarms_fired (todayISO hm : string) (tasks : list Task)
  (notified : list string) :
  (forall t, In t (fst (checkAlarms todayISO hm tasks notified)) ->
     In t tasks /\ alarm_due todayISO hm t = true /\
     includes notified (notificationKey t todayISO hm) = false) /\
  NoDup (map id (fst (checkAlarms todayISO hm tasks notified))).
Proof.
  destruct (checkAlarms todayISO hm tasks notified) as [fired n'] eqn:E.
  simpl. destruct (checkAlarms_inv _ _ _ _ _ _ E) as (S & N & _).
  split; [exact S|].
  apply (NoDup_map_inv
    (fun k => string_of_Z k ++ "-" ++ todayISO ++ "-" ++ hm)).
  rewrite map_map. exact N.
Qed.

(** X7: when task ids are distinct, the tasks that fire are exactly the
    due tasks whose notification key is not yet in the notified set, in
    list order. *)
Theorem checkAlarms_exact (todayISO hm : string) (tasks : list Task)
  (notified : list string) :
  NoDup (map id tasks) ->
  fst (checkAlarms todayISO hm tasks notified) =
  filter (fun t => alarm_due todayISO hm t &&
                   negb (includes notified (notificationKey t todayISO hm)))
    tasks.
Proof.
  revert notified. induction tasks as [|t rest IH]; intros notified Hnd;
    simpl; [reflexivity|].
  inversion Hnd as [|? ? Hx Hr]; subst.
  destruct (alarm_due todayISO hm t &&
            negb (includes notified (notificationKey t todayISO hm))) eqn:C.
  - destruct (checkAlarms todayISO hm rest
                (set_add notified (notificationKey t todayISO hm)))
      as [f1 n1] eqn:E1.
    simpl. f_equal. specialize (IH (set_add notified
                                     (notificationKey t todayISO hm)) Hr).
    rewrite E1 in IH. simpl in IH. rewrite IH.
    apply filter_ext_in. intros t' Hin. rewrite includes_set_add.
    destruct (String.eqb_spec (notificationKey t' todayISO hm)
                (notificationKey t todayISO hm)) as [Ek|_].
    + exfalso. apply notificationKey_inj in Ek. apply Hx.
      rewrite <- Ek. apply in_map, Hin.
    + rewrite orb_false_r. reflexivity.
  - apply IH, Hr.
Qed.

Lemma checkAlarms_exact_witness :
  fst (checkAlarms "2024-01-10" "09:30" [ot_today; ot_today2; wk_fri; rec_walk]
         ["13-2024-01-10-09:30"]) = [ot_today].
Proof.
  rewrite checkAlarms_exact.
  - vm_compute. reflexivity.
  - simpl. repeat constructor; simpl; intuition discriminate.
Defined.

(** X8: a second alarm check at the same minute, with the notified set
    the first one left, fires nothing. *)
Theorem checkAlarms_second_pass (todayISO hm : string) (tasks : list Task)
  (notified : list string) :
  fst (checkAlarms todayISO hm tasks
         (snd (checkAlarms todayISO hm tasks notified))) = [].
Proof.
  destruct (checkAlarms todayISO hm tasks notified) as [fired n'] eqn:E.
  simpl. destruct (checkAlarms_inv _ _ _ _ _ _ E) as (_ & _ & _ & A).
  apply checkAlarms_quiet. exact A.
Qed.

(** X9: when the ids of the stored tasks are distinct and the reordered
    (visible) tasks carry distinct ids that all occur in the store,
    [handleReorder] puts those ids first, in the new order, followed by the
    other tasks in their stored order, and loses or duplicates no task. *)
Theorem handleReorder_spec (newOrderedTasks prev : list Task) :
  NoDup (map id prev) -> NoDup (map id newOrderedTasks) ->
  incl (map id newOrderedTasks) (map id prev) ->
  map id (handleReorder newOrderedTasks prev) =
    (map id newOrderedTasks ++
     filter (fun k => negb (existsb (Z.eqb k) (map id newOrderedTasks)))
       (map id prev))%list /\
  Permutation (handleReorder newOrderedTasks prev) prev.
Proof.
  intros Hp Hn Hincl.
  assert (Hids : map id (handleReorder newOrderedTasks prev) =
    (map id newOrderedTasks ++
     filter (fun k => negb (existsb (Z.eqb k) (map id newOrderedTasks)))
       (map id prev))%list).
  { unfold handleReorder. rewrite map_app, reordered_ids by exact Hincl.
    f_equal. apply (map_id_filter
      (fun k => negb (existsb (Z.eqb k) (map id newOrderedTasks)))). }
  split; [exact Hids|].
  apply NoDup_Permutation.
  - apply (NoDup_map_inv id). rewrite Hids. apply NoDup_app.
    + exact Hn.
    + apply NoDup_filter, Hp.
    + intros k Hk Hf. apply filter_In in Hf as [_ Hf].
      apply negb_true_iff in Hf.
      assert (Ht : existsb (Z.eqb k) (map id newOrderedTasks) = true).
      { apply existsb_exists. exists k. split; [exact Hk | apply Z.eqb_refl]. }
      congruence.
  - apply (NoDup_map_inv id), Hp.
  - intros x. unfold handleReorder. rewrite in_app_iff, in_flat_map, filter_In.
    split.
    + intros [(k & _ & Hx)|[Hx _]]; [|exact Hx].
      destruct (idMap_get prev k) as [t|] eqn:E; [|contradiction].
      destruct Hx as [<-|[]]. apply idMap_get_some in E as [Ht _]. exact Ht.
    + intros Hx.
      destruct (existsb (Z.eqb (id x)) (map id newOrderedTasks)) eqn:Ex.
      * left. exists (id x). split.
        -- apply existsb_exists in Ex as (k & Hk & Ek).
           apply Z.eqb_eq in Ek. rewrite Ek. exact Hk.
        -- rewrite idMap_get_in by assumption. left. reflexivity.
      * right. split; [exact Hx | reflexivity].
Qed.

Lemma handleReorder_spec_witness :
  Permutation (handleReorder [wk_fri] [weekly_monday; wk_fri])
    [weekly_monday; wk_fri].
Proof.
  assert (H1 : NoDup (map id [weekly_monday; wk_fri])).
  { simpl. constructor; [simpl; intros [H|[]]; discriminate|].
    constructor; [intros []|constructor]. }
  assert (H2 : NoDup (map id [wk_fri])).
  { simpl. constructor; [intros []|constructor]. }
  assert (H3 : incl (map id [wk_fri]) (map id [weekly_monday; wk_fri])).
  { intros a [<-|[]]. simpl. tauto. }
  apply (proj2 (handleReorder_spec [wk_fri] [weekly_monday; wk_fri] H1 H2 H3)).
Defined.

(** X10: cycling a task's category four times gives back the task list
    unchanged. *)
Theorem cycleCategory_four (tid : Z) (tasks : list Task) :
  cycleCategory tid (cycleCategory tid (cycleCategory tid
    (cycleCategory tid tasks))) = tasks.
Proof.
  unfold cycleCategory.
  rewrite !update_task_compose by (intros [] ; reflexivity).
  apply update_task_id. intros [i tx ty c dc cs hs wd tm ns].
  destruct c; reflexivity.
Qed.

(** X11: cycling a task's type three times restores its type and every
    other field, except that a task without a weekday ([weeklyDay]
    undefined) keeps the weekday it was given when the cycle made it
    weekly: the day of the second cycle for a one-time task, of the first
    for a recurring task, of the third for a weekly one. *)
Theorem cycleType_three (d1 d2 d3 tid : Z) (tasks : list Task) :
  cycleType d3 tid (cycleType d2 tid (cycleType d1 tid tasks)) =
  update_task tid (fun t =>
    match weeklyDay t with
    | WUndefined =>
        applyEdit (EWeeklyDay (match type t with
                               | OneTime => d2
                               | Recurring => d1
                               | Weekly => d3
                               end)) t
    | _ => t
    end) tasks.
Proof.
  unfold cycleType.
  rewrite !update_task_compose by (intros [] ; reflexivity).
  unfold update_task. apply map_ext. intros t.
  destruct (id t =? tid); [|reflexivity].
  destruct t as [i tx ty c dc cs hs wd tm ns].
  destruct ty, wd; reflexivity.
Qed.

(** X12: on the category wheel of the add form, a step down ([delta > 0])
    moves to the category [cycleCategory] moves to, and a step in the other
    direction ([delta <= 0], a zero delta included) undoes it, and
    conversely. *)
Theorem wheelCategory_inverse (delta : Z) (t : Task) :
  (0 < delta ->
   wheelCategory delta (category t) = category (cycleCategory_task t) /\
   wheelCategory (-1) (wheelCategory delta (category t)) = category t) /\
  (delta <= 0 -> wheelCategory 1 (wheelCategory delta (category t)) = category t).
Proof.
  split; intros H.
  - assert (E : (0 <? delta) = true) by lia.
    assert (W : forall c, wheelCategory delta c = wheelCategory 1 c).
    { intros c. unfold wheelCategory. rewrite E. reflexivity. }
    rewrite W. destruct t as [i tx ty c dc cs hs wd tm ns].
    destruct c; split; reflexivity.
  - assert (E : (0 <? delta) = false) by lia.
    assert (W : forall c, wheelCategory delta c = wheelCategory (-1) c).
    { intros c. unfold wheelCategory. rewrite E. reflexivity. }
    rewrite W. destruct t as [i tx ty c dc cs hs wd tm ns].
    destruct c; reflexivity.
Qed.

Lemma wheelCategory_inverse_witness :
  wheelCategory 1 (wheelCategory 0 (category weekly_monday)) =
  category weekly_monday.
Proof. apply (proj2 (wheelCategory_inverse 0 weekly_monday)). lia. Defined.

(** X13: snoozing an alarm set at a valid time [HH:MM] sets the task's
    time to five minutes later, wrapping past midnight, and changes
    nothing else. *)
Theorem snoozeTask_spec (a : Task) (tasks : list Task) (h m : Z) :
  time a = Some (hhmm h m) -> 0 <= h <= 23 -> 0 <= m <= 59 ->
  snoozeTask (Some a) tasks =
  update_task (id a)
    (applyEdit (ETime (Some (hhmm (((h * 60 + m + 5) mod 1440) / 60)
                                  (((h * 60 + m + 5) mod 1440) mod 60)))))
    tasks.
Proof.
  intros Ht Hh Hm. unfold snoozeTask. rewrite Ht, hhmm_nonempty.
  pose proof check_snooze_ok as C. unfold check_snooze in C.
  rewrite forallb_forall in C. specialize (C h (in_hours h Hh)).
  rewrite forallb_forall in C. specialize (C m (in_minutes m Hm)).
  apply String.eqb_eq in C. rewrite C. reflexivity.
Qed.

Lemma snoozeTask_spec_witness :
  snoozeTask (Some wk_fri) [wk_fri] =
  update_task 11 (applyEdit (ETime (Some (hhmm 8 5)))) [wk_fri].
Proof.
  apply (snoozeTask_spec wk_fri [wk_fri] 8 0); [vm_compute; reflexivity|lia|lia].
Defined.

(** X14: on the time wheels of the add form, one step ([delta] in
    [-1..1]) on a valid [HH:MM] moves the hour modulo 24 and keeps the
    minute, or moves the minute modulo 60 and keeps the hour (no carry);
    with no time set the wheels start from [09:00]. *)
Theorem wheelTime_spec (h m delta : Z) :
  0 <= h <= 23 -> 0 <= m <= 59 -> -1 <= delta <= 1 ->
  wheelTime true delta (hhmm h m) = hhmm ((h + delta) mod 24) m /\
  wheelTime false delta (hhmm h m) = hhmm h ((m + delta) mod 60) /\
  wheelTime true delta "" = wheelTime true delta "09:00" /\
  wheelTime false delta "" = wheelTime false delta "09:00".
Proof.
  intros Hh Hm Hd.
  pose proof check_wheel_ok as C. unfold check_wheel in C.
  rewrite forallb_forall in C. specialize (C h (in_hours h Hh)).
  rewrite forallb_forall in C. specialize (C m (in_minutes m Hm)).
  rewrite forallb_forall in C.
  assert (Hin : In delta [-1; 0; 1]) by (simpl; lia).
  specialize (C delta Hin). apply andb_prop in C as [C1 C2].
  apply String.eqb_eq in C1, C2.
  split; [exact C1|split; [exact C2|split; reflexivity]].
Qed.

Lemma wheelTime_spec_witness :
  wheelTime true 1 (hhmm 23 59) = hhmm 0 59.
Proof. apply (wheelTime_spec 23 59 1); lia. Defined.

(** X15: the date string a calendar cell builds for day [d] of month
    index [month] (0-based) of a non-negative year is read back by
    [parseLocalDate] as [new Date(year, month, d)], the date the cell
    stands for. *)
Theorem calendarDayStr_parse (year month d : Z) :
  0 <= year -> 0 <= month <= 11 -> 1 <= d <= 31 ->
  parseLocalDate (calendarDayStr year month d) = new_Date year month d.
Proof.
  intros Hy Hm Hd.
  destruct (Number_string_of_Z year Hy) as [Ny Dy].
  destruct (pad_field (month + 1)) as [Dm Nm]; [lia|].
  destruct (pad_field d Hd) as [Dd Nd].
  unfold parseLocalDate, calendarDayStr.
  rewrite (nodash_split_lit _ _ Dy), (nodash_split_lit _ _ Dm),
    (nodash_split_end _ Dd).
  cbv iota beta. rewrite Ny, Nm, Nd.
  f_equal. lia.
Qed.

Lemma calendarDayStr_parse_witness :
  parseLocalDate (calendarDayStr 2024 0 31) = new_Date 2024 0 31.
Proof. apply calendarDayStr_parse; lia. Defined.
